(** * The typings-installer worker process (nodeTypingsInstaller.ts)

    A shallow embedding of [src/server/typingsInstaller/nodeTypingsInstaller.ts]:
    the file logger, the registry-file loader, the package-root resolver, the
    install worker and the message loop of [NodeTypingsInstaller], followed by
    the properties the specification states about them.

    JavaScript values are modelled as the code uses them: strings as [string],
    [undefined] as [None], indices as [Z] (with [-1] for "not found"),
    [Map<void>] as a [gmap] keyed by strings, exceptions as the [Throw] branch
    of a result, and the mutable process state as the state of a small
    state-and-exception monad. *)

From stdpp Require Import base option list gmap strings pretty.
From Stdlib Require Import ZArith Lia Ascii String.

Open Scope Z_scope.

(** ** JavaScript string primitives used by the source *)

Module Js.

(** The double-quote character that the template literals of the source
    write as an escaped quote. *)
Definition dquote : string := String (Ascii.ascii_of_nat 34) EmptyString.

(** [s.indexOf(sub)]: the first position at which [sub] occurs, or [-1]. *)
Fixpoint indexOf (s sub : string) : Z :=
  if String.prefix sub s then 0
  else match s with
       | EmptyString => -1
       | String _ rest =>
           let r := indexOf rest sub in
           if r =? -1 then -1 else r + 1
       end.

(** [s.lastIndexOf(c)] for a one-character needle, or [-1]. *)
Fixpoint lastIndexOf (s : string) (c : ascii) : Z :=
  match s with
  | EmptyString => -1
  | String a rest =>
      let r := lastIndexOf rest c in
      if r =? -1 then (if Ascii.eqb a c then 0 else -1) else r + 1
  end.

(** [s.substr(0, n)]: the first [n] characters (all of [s] when it is
    shorter, none when [n <= 0]). *)
Definition substr0 (s : string) (n : Z) : string :=
  String.substring 0 (Z.to_nat n) s.

(** [s[0]], [undefined] on the empty string. *)
Definition charAt0 (s : string) : option ascii :=
  match s with
  | EmptyString => None
  | String a _ => Some a
  end.

(** [s.charAt(s.length - 1)]. *)
Fixpoint lastChar (s : string) : option ascii :=
  match s with
  | EmptyString => None
  | String a EmptyString => Some a
  | String _ rest => lastChar rest
  end.

(** [parts.join(sep)]. *)
Fixpoint join (sep : string) (parts : list string) : string :=
  match parts with
  | [] => EmptyString
  | [p] => p
  | p :: rest => p +:+ sep +:+ join sep rest
  end.

(** Truthiness of a [string | undefined] value: [undefined] and the empty
    string are falsy. *)
Definition truthy (v : option string) : bool :=
  match v with
  | Some (String _ _) => true
  | _ => false
  end.

(** [a || b] on [string | undefined] operands. *)
Definition or (a b : option string) : option string :=
  if truthy a then a else b.

(** A template-literal hole holding a [string | undefined] value. *)
Definition interpolate (v : option string) : string :=
  match v with
  | Some s => s
  | None => "undefined"
  end.

End Js.

(** Modelled from the spec: [stringContains] (core utilities, not part of
    this file's source) tells whether a string contains another:
    [str.indexOf(substring) !== -1]. *)
Definition stringContains (str substring : string) : bool :=
  negb (Js.indexOf str substring =? -1).

(** ** JSON documents *)

Set Warnings "-register-all,-clear-no-such-hyp".

(** The values [JSON.parse] produces.  An object is kept as the list of its
    own properties in document order; [property] reads one the way the
    parsed object does (a repeated name keeps the last value). *)
Inductive json : Type :=
  | JNull
  | JBool (b : bool)
  | JNumber (literal : string)
  | JString (s : string)
  | JArray (items : list json)
  | JObject (fields : list (string * json)).

Fixpoint property (fields : list (string * json)) (key : string) : option json :=
  match fields with
  | [] => None
  | (k, v) :: rest =>
      match property rest key with
      | Some v' => Some v'
      | None => if String.eqb k key then Some v else None
      end
  end.

(** What the expression [content.entries] can evaluate to. *)
Inductive JsValue : Type :=
  | VUndefined
  | VJson (j : json)
  | VBuiltinFunction (name : string).

(** ** Exceptions and results *)

(** What can be thrown: an [Error] of the runtime (a [SyntaxError] of
    [JSON.parse], a [TypeError], a file-system error), the error of a child
    process, which carries the output captured so far, and the failure of a
    debug assertion.  [message] and [stack] are the two fields the source
    reads. *)
Inductive Exn : Type :=
  | Error (name message stack : string)
  | ChildProcessError (message : string) (stdout stderr : option string)
  | DebugFailure (message : string).

Definition Exn_message (e : Exn) : string :=
  match e with
  | Error _ m _ => m
  | ChildProcessError m _ _ => m
  | DebugFailure m => m
  end.

Definition Exn_stack (e : Exn) : string :=
  match e with
  | Error _ _ s => s
  | ChildProcessError m _ _ => m
  | DebugFailure m => m
  end.

Inductive Result (A : Type) : Type :=
  | Ok (a : A)
  | Throw (e : Exn).
Arguments Ok {A} a.
Arguments Throw {A} e.

Definition isOk {A} (r : Result A) : bool :=
  match r with Ok _ => true | Throw _ => false end.

(** ** The state-and-exception monad

    A JavaScript statement either completes or throws, and in both cases the
    mutations it made stay: a computation maps a state to a result and the
    state it leaves. *)

Definition M (S A : Type) : Type := S -> Result A * S.

#[global] Instance M_ret {S} : MRet (M S) := fun A (a : A) s => (Ok a, s).

#[global] Instance M_bind {S} : MBind (M S) := fun A B (f : A -> M S B) (m : M S A) s =>
  match m s with
  | (Ok a, s') => f a s'
  | (Throw e, s') => (Throw e, s')
  end.

Definition throw {S A} (e : Exn) : M S A := fun s => (Throw e, s).

(** [try { body } catch (e) { handler }]. *)
Definition try_catch {S A} (body : M S A) (handler : Exn -> M S A) : M S A := fun s =>
  match body s with
  | (Ok a, s') => (Ok a, s')
  | (Throw e, s') => handler e s'
  end.

(** [if (c) { body }] with no else branch. *)
Definition when {S} (c : bool) (body : M S unit) : M S unit :=
  if c then body else mret tt.

(** A pure step that completes or throws. *)
Definition liftResult {S A} (r : Result A) : M S A := fun s => (r, s).

Definition gets {S A} (f : S -> A) : M S A := fun s => (Ok (f s), s).

Definition modify {S} (f : S -> S) : M S unit := fun s => (Ok tt, f s).

(** ** Data of the worker *)

(** [FileLog]: the private [logEnabled] flag and the read-only [logFile]. *)
Record FileLog : Type := {
  logEnabled : bool;
  logFile : option string
}.

(** The options object handed to [execSync]. *)
Record ExecOptions : Type := {
  cwd : option string;
  stdio_ignore : bool
}.

(** ** Paths *)

Definition directorySeparator : ascii := "/"%char.

(** Modelled from the spec: [getRootLength] of the compiler's core utilities
    is not part of this file's source.  Paths are taken in the normalised
    form the specification's examples use, in which a rooted path starts with
    the separator; the root of such a path is that one character. *)
Definition getRootLength (path : string) : Z :=
  match path with
  | String c _ => if Ascii.eqb c directorySeparator then 1 else 0
  | EmptyString => 0
  end.

(** Modelled from the spec: [getDirectoryPath] (core utilities, not part of
    this file's source) gives the directory containing a path: the path up
    to its last separator, the root being its own directory. *)
Definition getDirectoryPath (path : string) : string :=
  Js.substr0 path (Z.max (getRootLength path) (Js.lastIndexOf path directorySeparator)).

(** Modelled from the spec: [combinePaths] (core utilities, not part of this
    file's source) joins a directory and a relative name with one separator;
    an empty path gives the other one, and a rooted second path gives that
    second path. *)
Definition combinePaths (path1 path2 : string) : string :=
  match path1, path2 with
  | EmptyString, _ => path2
  | _, EmptyString => path1
  | _, _ =>
      if negb (getRootLength path2 =? 0) then path2
      else if bool_decide (Js.lastChar path1 = Some directorySeparator)
           then path1 +:+ path2
           else path1 +:+ "/" +:+ path2
  end.

(** Modelled from the spec: [normalizeSlashes] (core utilities, not part of
    this file's source) turns every backslash into the separator. *)
Fixpoint normalizeSlashes (path : string) : string :=
  match path with
  | EmptyString => EmptyString
  | String c rest =>
      String (if Ascii.eqb c (Ascii.ascii_of_nat 92) then directorySeparator else c)
             (normalizeSlashes rest)
  end.

(** Modelled from the spec: [forEachAncestorDirectory] (core utilities, not
    part of this file's source) calls [callback] on [directory] and then on
    each ancestor in turn, up to and including the root (the directory that
    is its own parent), and returns the first result that is not
    [undefined].  Every step to a parent shortens the path, so the length of
    [directory] bounds the number of steps. *)
Fixpoint forEachAncestorDirectory_from {T} (steps : nat) (directory : string)
    (callback : string -> option T) {struct steps} : option T :=
  match callback directory with
  | Some result => Some result
  | None =>
      let parentPath := getDirectoryPath directory in
      if String.eqb parentPath directory then None
      else match steps with
           | O => None
           | S steps' => forEachAncestorDirectory_from steps' parentPath callback
           end
  end.

Definition forEachAncestorDirectory {T} (directory : string)
    (callback : string -> option T) : option T :=
  forEachAncestorDirectory_from (String.length directory) directory callback.

(** The chain of directories the walk visits: [directory], its parent, and
    so on up to the root. *)
Fixpoint ancestorDirectories_from (steps : nat) (directory : string) : list string :=
  let parentPath := getDirectoryPath directory in
  if String.eqb parentPath directory then [directory]
  else match steps with
       | O => [directory]
       | S steps' => directory :: ancestorDirectories_from steps' parentPath
       end.

Definition ancestorDirectories (directory : string) : list string :=
  ancestorDirectories_from (String.length directory) directory.

Definition TypesRegistryPackageName : string := "types-registry".

Definition getTypesRegistryFileLocation (globalTypingsCacheLocation : string) : string :=
  combinePaths (normalizeSlashes globalTypingsCacheLocation)
               ("node_modules/" +:+ TypesRegistryPackageName +:+ "/index.json").

(** ** Messages *)

(** The responses this file builds, and the ones of the base installer,
    which are opaque here.  A [TypesRegistryResponse] carries a plain
    object, kept as the map of its own properties: what [JSON.stringify] and
    the channel read of it. *)
Inductive TypingInstallerResponseUnion {BaseResponse : Type} : Type :=
  | InitializationFailedResponse (message : string)
  | TypesRegistryResponse (typesRegistry : gmap string json)
  | PackageInstalledResponse (success : bool) (message : string)
  | BaseInstallerResponse (response : BaseResponse).
Arguments TypingInstallerResponseUnion : clear implicits.

(** An inbound message by its [kind].  The declared union has the first four
    kinds; [OtherKind] stands for any other value arriving on the channel. *)
Inductive TypingInstallerRequestUnion {DiscoverTypings CloseProject : Type} : Type :=
  | DiscoverRequest (req : DiscoverTypings)
  | CloseProjectRequest (req : CloseProject)
  | TypesRegistryRequest
  | InstallPackageRequest (fileName packageName : string) (projectRootPath : option string)
  | OtherKind (kind : string).
Arguments TypingInstallerRequestUnion : clear implicits.

(** What the process does that its host and the system can observe. *)
Inductive Event {BaseResponse DiscoverTypings CloseProject : Type} : Type :=
  | EvSend (response : TypingInstallerResponseUnion BaseResponse)
  | EvExec (command : string) (options : ExecOptions) (exitedCleanly : bool)
  | EvInstall (req : DiscoverTypings)
  | EvCloseProject (req : CloseProject).
Arguments Event : clear implicits.

(** ** The platform

    Everything the file takes from outside: Node's [fs], [path], [process]
    and [child_process] modules, [JSON], [Date], the compiler's [sys] host
    and [version], the text of its [Debug.assertNever] failure, and the base
    class [TypingsInstaller].  [World] is the
    state of the machine the process runs on (files, clock, installed
    packages); a primitive that the source wraps in [try] may throw, the
    others are total.  A call into the base class gives its new fields, the
    machine it leaves, whether a write to the log failed during the call,
    and the responses it sent. *)
Class Platform : Type := {
  World : Type;
  BaseState : Type;
  BaseResponse : Type;
  DiscoverTypings : Type;
  CloseProject : Type;
  (* fs *)
  fs_appendFileSync : option string -> string -> World -> Result unit * World;
  (* path *)
  path_join : string -> string -> string;
  path_dirname : string -> string;
  path_basename : string -> string;
  (* process *)
  process_argv0 : string;
  process_pid : Z;
  (* child_process *)
  child_process_execSync : string -> ExecOptions -> World -> Result string * World;
  (* sys, also used as the InstallTypingHost *)
  sys_newLine : string;
  sys_fileExists : string -> World -> bool;
  sys_readFile : string -> World -> option string;
  (* JSON, Date, number formatting, ts.version *)
  JSON_parse : string -> Result json;
  JSON_stringify_response : TypingInstallerResponseUnion BaseResponse -> string;
  JSON_stringify_strings : list string -> string;
  Number_toString : Z -> string;
  Date_now : World -> Z;
  version : string;
  Arguments_NpmLocation : string;
  (* Debug: the text of the failed exhaustiveness assertion on a value *)
  Debug_assertNever_message :
    TypingInstallerRequestUnion DiscoverTypings CloseProject -> string;
  (* the base class TypingsInstaller *)
  TypingsInstaller_unset : BaseState;
  TypingsInstaller_constructor :
    string -> option string -> option string -> Z -> World -> BaseState * World * bool;
  TypingsInstaller_ensurePackageDirectoryExists :
    string -> BaseState -> World -> BaseState * World * bool;
  TypingsInstaller_install :
    DiscoverTypings -> BaseState -> World -> BaseState * World * bool * list BaseResponse;
  TypingsInstaller_closeProject :
    CloseProject -> BaseState -> World -> BaseState * World * bool * list BaseResponse
}.

Section Worker.

Context {platform : Platform}.

Abbreviation Response := (TypingInstallerResponseUnion BaseResponse).
Abbreviation Request := (TypingInstallerRequestUnion DiscoverTypings CloseProject).
Abbreviation Ev := (Event BaseResponse DiscoverTypings CloseProject).

(** The mutable state of the process: the machine, the module-level [log]
    object, what has been observed so far, the fields of the one
    [NodeTypingsInstaller] object ([delayedInitializationError] holds the
    message of the stored response, its kind being fixed), and whether an
    [uncaughtException] listener was registered. *)
Record State : Type := {
  world : World;
  log : FileLog;
  trace : list Ev;
  base : BaseState;
  npmPath : string;
  typesRegistry : gmap string json;
  delayedInitializationError : option string;
  uncaughtExceptionListener : bool
}.

Definition set_world (w : World) (s : State) : State :=
  {| world := w; log := log s; trace := trace s; base := base s; npmPath := npmPath s;
     typesRegistry := typesRegistry s;
     delayedInitializationError := delayedInitializationError s;
     uncaughtExceptionListener := uncaughtExceptionListener s |}.

Definition set_log (l : FileLog) (s : State) : State :=
  {| world := world s; log := l; trace := trace s; base := base s; npmPath := npmPath s;
     typesRegistry := typesRegistry s;
     delayedInitializationError := delayedInitializationError s;
     uncaughtExceptionListener := uncaughtExceptionListener s |}.

Definition add_event (ev : Ev) (s : State) : State :=
  {| world := world s; log := log s; trace := trace s ++ [ev]; base := base s;
     npmPath := npmPath s; typesRegistry := typesRegistry s;
     delayedInitializationError := delayedInitializationError s;
     uncaughtExceptionListener := uncaughtExceptionListener s |}.

Definition set_base (b : BaseState) (s : State) : State :=
  {| world := world s; log := log s; trace := trace s; base := b; npmPath := npmPath s;
     typesRegistry := typesRegistry s;
     delayedInitializationError := delayedInitializationError s;
     uncaughtExceptionListener := uncaughtExceptionListener s |}.

Definition set_npmPath (p : string) (s : State) : State :=
  {| world := world s; log := log s; trace := trace s; base := base s; npmPath := p;
     typesRegistry := typesRegistry s;
     delayedInitializationError := delayedInitializationError s;
     uncaughtExceptionListener := uncaughtExceptionListener s |}.

Definition set_typesRegistry (r : gmap string json) (s : State) : State :=
  {| world := world s; log := log s; trace := trace s; base := base s; npmPath := npmPath s;
     typesRegistry := r;
     delayedInitializationError := delayedInitializationError s;
     uncaughtExceptionListener := uncaughtExceptionListener s |}.

Definition set_delayedInitializationError (e : option string) (s : State) : State :=
  {| world := world s; log := log s; trace := trace s; base := base s; npmPath := npmPath s;
     typesRegistry := typesRegistry s;
     delayedInitializationError := e;
     uncaughtExceptionListener := uncaughtExceptionListener s |}.

(** *** Platform calls as computations *)

Definition appendFileSync (file : option string) (content : string) : M State unit :=
  fun s => let '(r, w) := fs_appendFileSync file content (world s) in (r, set_world w s).

(** [this.execSync(command, options)]; the call and how it ended are
    recorded in the trace. *)
Definition execSync (command : string) (options : ExecOptions) : M State string :=
  fun s => let '(r, w) := child_process_execSync command options (world s) in
           (r, add_event (EvExec command options (isOk r)) (set_world w s)).

(** [process.send(response)]. *)
Definition process_send (response : Response) : M State unit :=
  modify (add_event (EvSend response)).

(** ** FileLog *)

Definition FileLog_new (logFile : option string) : FileLog :=
  {| logEnabled := true; logFile := logFile |}.

Definition FileLog_isEnabled (l : FileLog) : bool :=
  logEnabled l && bool_decide (logFile l <> None).

Definition isEnabled : M State bool := gets (fun s => FileLog_isEnabled (log s)).

Definition writeLine (text : string) : M State unit :=
  try_catch
    (file ← gets (fun s => logFile (log s));
     appendFileSync file (text +:+ sys_newLine))
    (fun e => modify (fun s => set_log {| logEnabled := false; logFile := logFile (log s) |} s)).

(** ** getDefaultNPMLocation *)

Definition getDefaultNPMLocation (processName : string) : string :=
  if Js.indexOf (path_basename processName) "node" =? 0
  then Js.dquote +:+ path_join (path_dirname process_argv0) "npm" +:+ Js.dquote
  else "npm".

(** ** loadTypesRegistryFile *)

(** [content.entries]: a property read throws on [null]; on an array it
    finds the method [Array.prototype.entries]; on any other value that does
    not have the property it gives [undefined]. *)
Definition get_entries (content : json) : Result JsValue :=
  match content with
  | JNull => Throw (Error "TypeError" "Cannot read property 'entries' of null" "")
  | JObject fields =>
      Ok (match property fields "entries" with
          | Some v => VJson v
          | None => VUndefined
          end)
  | JArray _ => Ok (VBuiltinFunction "entries")
  | _ => Ok VUndefined
  end.

(** The keys [for (const key in template)] visits that are own properties of
    [template], with the value read at each: the properties of an object,
    the indices of an array or of a string; nothing for [undefined],
    [null], a number, a boolean or a function. *)
Definition ownEnumerableProperties (template : JsValue) : list (string * json) :=
  match template with
  | VJson (JObject fields) =>
      omap (fun '(k, _) => pair k <$> property fields k) fields
  | VJson (JArray items) => imap (fun i v => (pretty i, v)) items
  | VJson (JString str) =>
      imap (fun i c => (pretty i, JString (String c EmptyString))) (list_ascii_of_string str)
  | _ => []
  end.

(** Modelled from the spec: [createMapFromTemplate] (core utilities, not part
    of this file's source) makes a fresh map and sets in it every own key of
    the template to the template's value for it. *)
Definition createMapFromTemplate (template : JsValue) : gmap string json :=
  foldl (fun m '(k, v) => <[k:=v]> m) ∅ (ownEnumerableProperties template).

Definition loadTypesRegistryFile (typesRegistryFilePath : string) : M State (gmap string json) :=
  exists_ ← gets (fun s => sys_fileExists typesRegistryFilePath (world s));
  if negb exists_ then
    enabled ← isEnabled;
    when enabled
      (writeLine ("Types registry file '" +:+ typesRegistryFilePath +:+ "' does not exist"));;
    mret ∅
  else
    try_catch
      (text ← gets (fun s => sys_readFile typesRegistryFilePath (world s));
       content ← liftResult (JSON_parse (Js.interpolate text));
       entries ← liftResult (get_entries content);
       mret (createMapFromTemplate entries))
      (fun e =>
         enabled ← isEnabled;
         when enabled
           (writeLine ("Error when loading types registry file '" +:+ typesRegistryFilePath
                       +:+ "': " +:+ Exn_message e +:+ ", " +:+ Exn_stack e));;
         mret ∅).

(** ** getDirectoryOfPackageJson *)

Definition getDirectoryOfPackageJson (fileName : string) (host : World) : option string :=
  forEachAncestorDirectory (getDirectoryPath fileName)
    (fun directory =>
       if sys_fileExists (combinePaths directory "package.json") host
       then Some directory
       else None).

(** ** NodeTypingsInstaller *)

(** Modelled from the spec: [Debug.assertNever] (the compiler's debug
    utilities, not part of this file's source) is the unreachable assertion
    of an exhaustive dispatch: it never returns, it fails.  It is given the
    offending value, here the whole message, and makes the text of the
    failure from it. *)
Definition Debug_assertNever {A} (member : Request) : M State A :=
  throw (DebugFailure (Debug_assertNever_message member)).

(** The calls into the base class, which run on its own fields and on the
    machine; the responses they send go out on the channel, and a failed
    write to the log during the call leaves the logger disabled. *)
Definition send_all (responses : list BaseResponse) (s : State) : State :=
  foldl (fun s r => add_event (EvSend (BaseInstallerResponse r)) s) s responses.

Definition base_logged (failed : bool) (s : State) : State :=
  if failed
  then set_log {| logEnabled := false; logFile := logFile (log s) |} s
  else s.

Definition super_constructor (globalTypingsCacheLocation : string)
    (typingSafeListLocation typesMapLocation : option string) (throttleLimit : Z)
    : M State unit :=
  modify (fun s =>
    let '(b, w, failed) := TypingsInstaller_constructor globalTypingsCacheLocation
                             typingSafeListLocation typesMapLocation throttleLimit (world s) in
    base_logged failed (set_base b (set_world w s))).

Definition ensurePackageDirectoryExists (directory : string) : M State unit :=
  modify (fun s =>
    let '(b, w, failed) :=
      TypingsInstaller_ensurePackageDirectoryExists directory (base s) (world s) in
    base_logged failed (set_base b (set_world w s))).

Definition install (req : DiscoverTypings) : M State unit :=
  modify (fun s =>
    let '(b, w, failed, out) := TypingsInstaller_install req (base s) (world s) in
    send_all out (base_logged failed (set_base b (set_world w (add_event (EvInstall req) s))))).

Definition closeProject (req : CloseProject) : M State unit :=
  modify (fun s =>
    let '(b, w, failed, out) := TypingsInstaller_closeProject req (base s) (world s) in
    send_all out
      (base_logged failed (set_base b (set_world w (add_event (EvCloseProject req) s))))).

(** The command line the constructor runs to update the registry package. *)
Definition updateCommand (npmPath : string) : string :=
  npmPath +:+ " install --ignore-scripts " +:+ TypesRegistryPackageName.

Definition NodeTypingsInstaller_constructor (globalTypingsCacheLocation : string)
    (typingSafeListLocation typesMapLocation npmLocation : option string)
    (throttleLimit : Z) : M State unit :=
  super_constructor globalTypingsCacheLocation typingSafeListLocation typesMapLocation
    throttleLimit;;
  modify (set_npmPath
            (match npmLocation with
             | Some location => location
             | None => getDefaultNPMLocation process_argv0
             end));;
  (* If the NPM path contains spaces and isn't wrapped in quotes, do so. *)
  path0 ← gets npmPath;
  when (stringContains path0 " "
        && negb (bool_decide (Js.charAt0 path0 = Some (Ascii.ascii_of_nat 34))))
    (modify (set_npmPath (Js.dquote +:+ path0 +:+ Js.dquote)));;
  path1 ← gets npmPath;
  enabled ← isEnabled;
  when enabled
    (writeLine ("Process id: " +:+ Number_toString process_pid);;
     writeLine ("NPM location: " +:+ path1 +:+ " (explicit '" +:+ Arguments_NpmLocation
                +:+ "' " +:+ (if npmLocation is None then "not " else "")
                +:+ " provided)"));;
  ensurePackageDirectoryExists globalTypingsCacheLocation;;
  try_catch
    (enabled ← isEnabled;
     when enabled (writeLine ("Updating " +:+ TypesRegistryPackageName +:+ " npm package..."));;
     execSync (updateCommand path1)
       {| cwd := Some globalTypingsCacheLocation; stdio_ignore := true |};;
     enabled ← isEnabled;
     when enabled (writeLine ("Updated " +:+ TypesRegistryPackageName +:+ " npm package")))
    (fun e =>
       enabled ← isEnabled;
       when enabled
         (writeLine ("Error updating " +:+ TypesRegistryPackageName +:+ " package: "
                     +:+ Exn_message e));;
       (* store error info to report it later *)
       modify (set_delayedInitializationError (Some (Exn_message e))));;
  registry ← loadTypesRegistryFile (getTypesRegistryFileLocation globalTypingsCacheLocation);
  modify (set_typesRegistry registry).

Definition sendResponse (response : Response) : M State unit :=
  enabled ← isEnabled;
  when enabled (writeLine ("Sending response: " +:+ JSON_stringify_response response));;
  process_send response;;
  enabled ← isEnabled;
  when enabled (writeLine "Response has been sent.").

(** The command line [installWorker] builds. *)
Definition installCommand (npmPath : string) (packageNames : list string) : string :=
  npmPath +:+ " install --ignore-scripts " +:+ Js.join " " packageNames
  +:+ " --save-dev --user-agent=" +:+ Js.dquote +:+ "typesInstaller/" +:+ version
  +:+ Js.dquote.

Definition Exn_stdout (e : Exn) : option string :=
  match e with ChildProcessError _ out _ => out | _ => None end.

Definition Exn_stderr (e : Exn) : option string :=
  match e with ChildProcessError _ _ err => err | _ => None end.

Definition installWorker (requestId : Z) (packageNames : list string) (cwd : option string)
    (onRequestCompleted : bool -> M State unit) : M State unit :=
  enabled ← isEnabled;
  when enabled
    (writeLine ("#" +:+ Number_toString requestId +:+ " with arguments'"
                +:+ JSON_stringify_strings packageNames +:+ "'."));;
  path ← gets npmPath;
  let command := installCommand path packageNames in
  start ← gets (fun s => Date_now (world s));
  '(stdout, stderr, hasError) ←
    try_catch
      (out ← execSync command {| cwd := cwd; stdio_ignore := false |};
       mret (Some out, None, false))
      (fun e => mret (Exn_stdout e, Exn_stderr e, true));
  enabled ← isEnabled;
  when enabled
    (now ← gets (fun s => Date_now (world s));
     writeLine ("npm install #" +:+ Number_toString requestId +:+ " took: "
                +:+ Number_toString (now - start) +:+ " ms" +:+ sys_newLine
                +:+ "stdout: " +:+ Js.interpolate stdout +:+ sys_newLine
                +:+ "stderr: " +:+ Js.interpolate stderr));;
  onRequestCompleted (negb hasError).

Definition kind_of (req : Request) : string :=
  match req with
  | DiscoverRequest _ => "discover"
  | CloseProjectRequest _ => "closeProject"
  | TypesRegistryRequest => "typesRegistry"
  | InstallPackageRequest _ _ _ => "installPackage"
  | OtherKind kind => kind
  end.

Definition packageInstalledMessage (success : bool) (packageName : string) : string :=
  if success then "Package " +:+ packageName +:+ " installed."
  else "There was an error installing " +:+ packageName +:+ ".".

(** [typesRegistry[key] = value] on the plain object the listener fills.
    The object starts as [{}] and each key of the map is assigned once, so
    its prototype is [Object.prototype] when [__proto__] is assigned: that
    assignment runs the inherited setter, which makes no own property (it
    replaces the prototype if the value is an object or [null], and the own
    properties do not show that).  Every other key becomes an own property
    with the value. *)
Definition assignProperty (key : string) (value : json) (object : gmap string json)
    : gmap string json :=
  if String.eqb key "__proto__" then object else <[key:=value]> object.

(** The object of the [typesRegistry] case: [{}], then
    [this.typesRegistry.forEach((value, key) => { typesRegistry[key] = value; })]. *)
Definition typesRegistryObject (registry : gmap string json) : gmap string json :=
  map_fold assignProperty ∅ registry.

(** The switch on [req.kind] in the listener. *)
Definition dispatch (req : Request) : M State unit :=
  match req with
  | DiscoverRequest r => install r
  | CloseProjectRequest r => closeProject r
  | TypesRegistryRequest =>
      registry ← gets typesRegistry;
      sendResponse (TypesRegistryResponse (typesRegistryObject registry))
  | InstallPackageRequest fileName packageName projectRootPath =>
      host ← gets world;
      let cwd := Js.or (getDirectoryOfPackageJson fileName host) projectRootPath in
      installWorker (-1) [packageName] cwd
        (fun success =>
           sendResponse
             (PackageInstalledResponse success (packageInstalledMessage success packageName)))
  | OtherKind _ => Debug_assertNever req
  end.

(** The listener [listen] registers for [message]. *)
Definition onMessage (req : Request) : M State unit :=
  pending ← gets delayedInitializationError;
  match pending with
  | Some message =>
      (* report initializationFailed error *)
      sendResponse (InitializationFailedResponse message);;
      modify (set_delayedInitializationError None)
  | None => mret tt
  end;;
  dispatch req.

(** ** The process *)

(** What the host does to the worker after starting it. *)
Inductive HostEvent : Type :=
  | Message (req : Request)
  | Disconnect.

(** The statements at the end of the file: the log object and the
    [uncaughtException] listener (registered only if logging is enabled at
    that point), with the installer's fields not yet set... *)
Definition initialState (logFilePath : option string) (w : World) : State :=
  {| world := w;
     log := FileLog_new logFilePath;
     trace := [];
     base := TypingsInstaller_unset;
     npmPath := EmptyString;
     typesRegistry := ∅;
     delayedInitializationError := None;
     uncaughtExceptionListener := FileLog_isEnabled (FileLog_new logFilePath) |}.

(** ...and then the installer is constructed. *)
Definition start (logFilePath : option string) (globalTypingsCacheLocation : string)
    (typingSafeListLocation typesMapLocation npmLocation : option string)
    (w : World) : Result unit * State :=
  NodeTypingsInstaller_constructor globalTypingsCacheLocation typingSafeListLocation
    typesMapLocation npmLocation 5 (initialState logFilePath w).

(** The event loop.  An exception that leaves a listener ends the process
    unless an [uncaughtException] listener is registered, which here writes
    a line to the log; [Disconnect] makes the process exit. *)
Fixpoint run (events : list HostEvent) (s : State) : State :=
  match events with
  | [] => s
  | Disconnect :: _ =>
      snd ((enabled ← isEnabled;
            when enabled (writeLine "Parent process has exited, shutting down...")) s)
  | Message req :: rest =>
      match onMessage req s with
      | (Ok _, s') => run rest s'
      | (Throw e, s') =>
          if uncaughtExceptionListener s'
          then run rest (snd (writeLine ("Unhandled exception: " +:+ Exn_message e
                                         +:+ " at " +:+ Exn_stack e) s'))
          else s'
      end
  end.

(** ** Notions the properties are stated with *)

(** A run of [writeLine] calls. *)
Fixpoint writeLines (texts : list string) : M State unit :=
  match texts with
  | [] => mret tt
  | text :: rest => writeLine text;; writeLines rest
  end.

(** The messages of the initialization-failure responses in a trace. *)
Fixpoint initializationFailures (t : list Ev) : list string :=
  match t with
  | [] => []
  | EvSend (InitializationFailedResponse message) :: rest =>
      message :: initializationFailures rest
  | _ :: rest => initializationFailures rest
  end.

(** The first statement of the listener: deliver the delayed error. *)
Definition reportDelayedInitializationError : M State unit :=
  pending ← gets delayedInitializationError;
  match pending with
  | Some message =>
      sendResponse (InitializationFailedResponse message);;
      modify (set_delayedInitializationError None)
  | None => mret tt
  end.

(** What delivering the delayed error adds to the trace. *)
Definition pendingEvents (s : State) : list Ev :=
  match delayedInitializationError s with
  | Some message => [EvSend (InitializationFailedResponse message)]
  | None => []
  end.

(** The path of the package manager the constructor settles on. *)
Definition chosenNpmPath (npmLocation : option string) : string :=
  let path := match npmLocation with
              | Some location => location
              | None => getDefaultNPMLocation process_argv0
              end in
  if stringContains path " " && negb (bool_decide (Js.charAt0 path = Some (Ascii.ascii_of_nat 34)))
  then Js.dquote +:+ path +:+ Js.dquote
  else path.

(** The guarded write [if (log.isEnabled()) log.writeLine(text)]. *)
Definition logged (text : string) : M State unit :=
  enabled ← isEnabled;
  when enabled (writeLine text).

(** Reading the file and taking [entries] of the parsed document, the body
    of the [try] in [loadTypesRegistryFile]. *)
Definition readEntries (typesRegistryFilePath : string) (host : World) : Result JsValue :=
  match JSON_parse (Js.interpolate (sys_readFile typesRegistryFilePath host)) with
  | Ok content => get_entries content
  | Throw e => Throw e
  end.

(** The kinds of the declared request union. *)
Definition legalKinds : list string :=
  ["discover"; "closeProject"; "typesRegistry"; "installPackage"].

(** [OtherKind] is only used for a kind outside the declared union. *)
Definition wellFormed (req : Request) : Prop :=
  match req with
  | OtherKind kind => kind ∉ legalKinds
  | _ => True
  end.

(** Whether [package.json] exists in [directory]. *)
Definition hasPackageJson (host : World) (directory : string) : bool :=
  sys_fileExists (combinePaths directory "package.json") host.

(** What the switch adds to the trace, by kind, and how the listener ends. *)
Definition dispatched (req : Request) (s : State)
    (r : Result unit) (tail : list Ev) : Prop :=
  match req with
  | DiscoverRequest d =>
      r = Ok tt /\
      exists out, tail = EvInstall d :: map (fun x => EvSend (BaseInstallerResponse x)) out
  | CloseProjectRequest c =>
      r = Ok tt /\
      exists out, tail = EvCloseProject c :: map (fun x => EvSend (BaseInstallerResponse x)) out
  | TypesRegistryRequest =>
      r = Ok tt /\
      tail = [EvSend (TypesRegistryResponse (typesRegistryObject (typesRegistry s)))]
  | InstallPackageRequest fileName packageName projectRootPath =>
      r = Ok tt /\
      exists (res : Result string) before after,
        let command := installCommand (npmPath s) [packageName] in
        let options :=
          {| cwd := Js.or (getDirectoryOfPackageJson fileName (world s)) projectRootPath;
             stdio_ignore := false |} in
        child_process_execSync command options before = (res, after) /\
        tail = [EvExec command options (isOk res);
                EvSend (PackageInstalledResponse (isOk res)
                          (packageInstalledMessage (isOk res) packageName))]
  | OtherKind _ =>
      r = Throw (DebugFailure (Debug_assertNever_message req)) /\ tail = []
  end.

(** An event the loop serves to the end: a message of one of the declared
    kinds. *)
Definition served (e : HostEvent) : bool :=
  match e with
  | Message (OtherKind _) => false
  | Message _ => true
  | Disconnect => false
  end.

(** The package names of the [installPackage] requests among the events, in
    order. *)
Fixpoint installPackageRequests (events : list HostEvent) : list string :=
  match events with
  | [] => []
  | Message (InstallPackageRequest _ packageName _) :: rest =>
      packageName :: installPackageRequests rest
  | _ :: rest => installPackageRequests rest
  end.

(** The package-installed responses in a trace, in order. *)
Fixpoint packageInstalledResponses (t : list Ev) : list (bool * string) :=
  match t with
  | [] => []
  | EvSend (PackageInstalledResponse success message) :: rest =>
      (success, message) :: packageInstalledResponses rest
  | _ :: rest => packageInstalledResponses rest
  end.

(** *** Notions for reasoning about computations *)

(** The postcondition [Q] holds of the result and final state of [m] run
    from [s]. *)
Definition wp {A} (m : M State A) (s : State) (Q : Result A -> State -> Prop) : Prop :=
  Q (m s).1 (m s).2.

(** What a call on the logger can do to the [log] object: the file stays,
    and a disabled logger stays disabled. *)
Definition log_step (l l' : FileLog) : Prop :=
  logFile l' = logFile l /\ (logEnabled l = false -> logEnabled l' = false).

(** A computation that only writes to the log. *)
Definition logs_only (m : M State unit) : Prop :=
  forall s Q,
    (forall w l, log_step (log s) l -> Q (Ok tt) (set_log l (set_world w s))) ->
    wp m s Q.

End Worker.

Abbreviation Response := (TypingInstallerResponseUnion BaseResponse).
Abbreviation Request := (TypingInstallerRequestUnion DiscoverTypings CloseProject).
Abbreviation Ev := (Event BaseResponse DiscoverTypings CloseProject).



(** The command line of [installWorker] as the specification describes it:
    the words of the command separated by single spaces. *)
Definition installCommandWords (npm version : string) (packageNames : list string) : list string :=
  [npm; "install"; "--ignore-scripts"] ++ packageNames
  ++ ["--save-dev"; "--user-agent=" +:+ Js.dquote +:+ "typesInstaller/" +:+ version +:+ Js.dquote].

(** ** A concrete platform

    A small machine on which the definitions can be run: a list of files, a
    clock, a package manager that works or not, and a log file that can be
    written or not. *)
Module Demo.

Record Machine : Type := {
  files : list (string * string);
  clock : Z;
  npmWorks : bool;
  logWritable : bool
}.

Definition quoted (s : string) : string := Js.dquote +:+ s +:+ Js.dquote.

(** The text of a registry file listing [lodash]: an object whose [entries]
    is an object. *)
Definition registryText : string :=
  "{" +:+ quoted "entries" +:+ ":{" +:+ quoted "lodash" +:+ ":null}}".

(** The text of a file whose [entries] is an array. *)
Definition arrayText : string :=
  "{" +:+ quoted "entries" +:+ ":[" +:+ quoted "lodash" +:+ "]}".

(** [JSON.parse] on the texts used here; any other text is a syntax error. *)
Definition parse (text : string) : Result json :=
  if String.eqb text registryText then Ok (JObject [("entries", JObject [("lodash", JNull)])])
  else if String.eqb text arrayText then Ok (JObject [("entries", JArray [JString "lodash"])])
  else if String.eqb text "null" then Ok JNull
  else if String.eqb text "{}" then Ok (JObject [])
  else Throw (Error "SyntaxError" "Unexpected token" "").

(** [path.basename] for paths with forward slashes. *)
Definition basename (p : string) : string :=
  let i := Js.lastIndexOf p directorySeparator in
  String.substring (Z.to_nat (i + 1)) (String.length p) p.

Definition tick (w : Machine) : Machine :=
  {| files := files w; clock := clock w + 1; npmWorks := npmWorks w;
     logWritable := logWritable w |}.

Definition platform : Platform := {|
  World := Machine;
  BaseState := unit;
  BaseResponse := unit;
  DiscoverTypings := unit;
  CloseProject := unit;
  fs_appendFileSync := fun file _ w =>
    match file with
    | Some _ => if logWritable w then (Ok tt, w) else (Throw (Error "Error" "EACCES" ""), w)
    | None => (Throw (Error "TypeError" "path must be a string" ""), w)
    end;
  path_join := fun a b => a +:+ "/" +:+ b;
  path_dirname := getDirectoryPath;
  path_basename := basename;
  process_argv0 := "/usr/bin/node";
  process_pid := 4242;
  child_process_execSync := fun _ _ w =>
    if npmWorks w then (Ok "ok", tick w)
    else (Throw (ChildProcessError "network unreachable" None (Some "ENETUNREACH")), tick w);
  sys_newLine := String (Ascii.ascii_of_nat 10) EmptyString;
  sys_fileExists := fun p w => bool_decide (p ∈ (files w).*1);
  sys_readFile := fun p w => (fun found => found.2.2) <$> list_find (fun f => f.1 = p) (files w);
  JSON_parse := parse;
  JSON_stringify_response := fun _ => "{}";
  JSON_stringify_strings := fun names => "[" +:+ Js.join "," names +:+ "]";
  Number_toString := pretty;
  Date_now := clock;
  version := "2.7.0";
  Arguments_NpmLocation := "--npmLocation";
  Debug_assertNever_message := fun _ => "Illegal value: [object Object]";
  TypingsInstaller_unset := tt;
  TypingsInstaller_constructor := fun _ _ _ _ w => (tt, w, false);
  TypingsInstaller_ensurePackageDirectoryExists := fun _ b w => (b, w, false);
  TypingsInstaller_install := fun _ b w => (b, w, negb (logWritable w), []);
  TypingsInstaller_closeProject := fun _ b w => (b, w, false, [])
|}.

#[local] Existing Instance platform.

Definition registryPath : string := "/cache/node_modules/types-registry/index.json".

(** A machine with a registry file and a project at [/a/b]. *)
Definition machine (npm writable : bool) (registry : string) : Machine :=
  {| files := [(registryPath, registry); ("/a/b/package.json", "{}")];
     clock := 0; npmWorks := npm; logWritable := writable |}.

(** The process after start-up on such a machine. *)
Definition started (logFilePath : option string) (npm writable : bool) : State :=
  snd (start logFilePath "/cache" None None None (machine npm writable registryText)).

End Demo.

(** * Properties *)

(** ** Strings *)

Lemma indexOf_ge s sub : -1 <= Js.indexOf s sub.
Proof.
  induction s as [|a s IH]; cbn [Js.indexOf]; repeat case_match; lia.
Qed.

(** [indexOf] gives [0] exactly when the needle is a prefix. *)
Lemma indexOf_zero_prefix s sub :
  (Js.indexOf s sub =? 0) = String.prefix sub s.
Proof.
  pose proof (indexOf_ge (match s with String _ r => r | _ => s end) sub) as G.
  destruct s as [|a s]; cbn [Js.indexOf]; repeat case_match; try reflexivity; lia.
Qed.

(** ** Reasoning about computations: weakest preconditions *)

Create HintDb logs.

Section Wp.

Context {platform : Platform}.

Lemma wp_ret {A} (a : A) s Q : Q (Ok a) s -> wp (mret a) s Q.
Proof. done. Qed.

Lemma wp_bind {A B} (m : M State A) (f : A -> M State B) s Q :
  wp m s (fun r s' => match r with Ok a => wp (f a) s' Q | Throw e => Q (Throw e) s' end) ->
  wp (m ≫= f) s Q.
Proof.
  unfold wp, mbind, M_bind. destruct (m s) as [[a|e] s']; simpl; auto.
Qed.

Lemma wp_gets {A} (f : State -> A) s Q : Q (Ok (f s)) s -> wp (gets f) s Q.
Proof. done. Qed.

Lemma wp_modify (f : State -> State) s Q : Q (Ok tt) (f s) -> wp (modify f) s Q.
Proof. done. Qed.

Lemma wp_throw {A} e s (Q : Result A -> State -> Prop) : Q (Throw e) s -> wp (throw e) s Q.
Proof. done. Qed.

Lemma wp_liftResult {A} (r : Result A) s Q : Q r s -> wp (liftResult r) s Q.
Proof. done. Qed.

Lemma wp_when (c : bool) (body : M State unit) s Q :
  (c = true -> wp body s Q) -> (c = false -> Q (Ok tt) s) -> wp (when c body) s Q.
Proof. intros H1 H2. destruct c; [apply H1|apply H2]; reflexivity. Qed.

Lemma wp_try_catch {A} (body : M State A) handler s Q :
  wp body s (fun r s' => match r with Ok a => Q (Ok a) s' | Throw e => wp (handler e) s' Q end) ->
  wp (try_catch body handler) s Q.
Proof.
  unfold wp, try_catch. destruct (body s) as [[a|e] s']; simpl; auto.
Qed.

(** *** The logger *)

Lemma log_step_refl l : log_step l l.
Proof. by split. Qed.

Lemma log_step_trans l1 l2 l3 : log_step l1 l2 -> log_step l2 l3 -> log_step l1 l3.
Proof. intros [E1 D1] [E2 D2]. split; [congruence|auto]. Qed.

Lemma set_log_set_world_id s : set_log (log s) (set_world (world s) s) = s.
Proof. by destruct s. Qed.

(** [writeLine] never throws; it touches the machine and the log only, and
    it disables the log exactly when the append throws. *)
Lemma writeLine_eq text s :
  writeLine text s =
    match fs_appendFileSync (logFile (log s)) (text +:+ sys_newLine) (world s) with
    | (Ok _, w) => (Ok tt, set_log (log s) (set_world w s))
    | (Throw _, w) =>
        (Ok tt, set_log {| logEnabled := false; logFile := logFile (log s) |} (set_world w s))
    end.
Proof.
  unfold writeLine, try_catch, mbind, M_bind, gets, appendFileSync, modify. simpl.
  destruct (fs_appendFileSync _ _ _) as [[[]|e] w]; simpl; [|done].
  by destruct s.
Qed.

Lemma wp_writeLine text s Q :
  (forall w l, log_step (log s) l -> Q (Ok tt) (set_log l (set_world w s))) ->
  wp (writeLine text) s Q.
Proof.
  intros H. unfold wp. rewrite writeLine_eq.
  destruct (fs_appendFileSync _ _ _) as [[[]|e] w]; simpl; apply H.
  - apply log_step_refl.
  - by split.
Qed.

Lemma wp_isEnabled s Q : Q (Ok (FileLog_isEnabled (log s))) s -> wp isEnabled s Q.
Proof. done. Qed.

Lemma wp_execSync command options s Q :
  (forall r w, child_process_execSync command options (world s) = (r, w) ->
     Q r (add_event (EvExec command options (isOk r)) (set_world w s))) ->
  wp (execSync command options) s Q.
Proof.
  intros H. unfold wp, execSync.
  destruct (child_process_execSync _ _ _) as [r w] eqn:E. simpl. by apply H.
Qed.

Lemma logs_only_writeLine text : logs_only (writeLine text).
Proof. intros s Q HQ. by apply wp_writeLine. Qed.

Lemma logs_only_ret : logs_only (mret tt).
Proof.
  intros s Q HQ. apply wp_ret. rewrite <- (set_log_set_world_id s).
  apply HQ, log_step_refl.
Qed.

Lemma logs_only_seq (m1 m2 : M State unit) :
  logs_only m1 -> logs_only m2 -> logs_only (m1 ≫= fun _ => m2).
Proof.
  intros H1 H2 s Q HQ. apply wp_bind, H1. intros w1 l1 S1.
  apply H2. intros w2 l2 S2. apply (HQ w2 l2).
  exact (log_step_trans _ _ _ S1 S2).
Qed.

Lemma logs_only_when c m : logs_only m -> logs_only (when c m).
Proof. intros Hm. destruct c; [exact Hm | exact logs_only_ret]. Qed.

Lemma logs_only_gets {A} (f : State -> A) (k : A -> M State unit) :
  (forall a, logs_only (k a)) -> logs_only (gets f ≫= k).
Proof. intros Hk s Q HQ. apply wp_bind, wp_gets. by apply Hk. Qed.

Lemma logs_only_guard (body : M State unit) :
  logs_only body -> logs_only (isEnabled ≫= fun enabled => when enabled body).
Proof. intros Hb. apply logs_only_gets. intros c. by apply logs_only_when. Qed.

#[local] Hint Resolve logs_only_writeLine logs_only_ret logs_only_seq logs_only_when
  logs_only_gets logs_only_guard : logs.

(** The idiom [if (this.log.isEnabled()) { body }] followed by more code. *)
Lemma wp_guard {A} (body : M State unit) (rest : M State A) s Q :
  logs_only body ->
  (forall w l, log_step (log s) l -> wp rest (set_log l (set_world w s)) Q) ->
  wp (isEnabled ≫= fun enabled => when enabled body ≫= fun _ => rest) s Q.
Proof.
  intros Hb HQ. apply wp_bind, wp_isEnabled. apply wp_bind.
  apply (logs_only_when _ _ Hb). exact HQ.
Qed.

Lemma wp_sendResponse response s Q :
  (forall w l, log_step (log s) l ->
     Q (Ok tt) (set_log l (set_world w (add_event (EvSend response) s)))) ->
  wp (sendResponse response) s Q.
Proof.
  intros HQ. unfold sendResponse. apply wp_guard; [auto with logs|].
  intros w1 l1 S1. apply wp_bind, wp_modify.
  apply (logs_only_guard _ (logs_only_writeLine _)).
  intros w2 l2 S2. apply (HQ w2 l2). exact (log_step_trans _ _ _ S1 S2).
Qed.

End Wp.

#[global] Hint Resolve logs_only_writeLine logs_only_ret logs_only_seq logs_only_when
  logs_only_gets logs_only_guard : logs.

(** ** Stepping through a computation *)

Lemma wp_run `{platform : Platform} {A} (m : M State A) s Q :
  wp m s Q -> exists r s', m s = (r, s') /\ Q r s'.
Proof. unfold wp. intros H. exists (m s).1, (m s).2. by destruct (m s). Qed.

Lemma wp_guard_last `{platform : Platform} (body : M State unit) s Q :
  logs_only body ->
  (forall w l, log_step (log s) l -> Q (Ok tt) (set_log l (set_world w s))) ->
  wp (isEnabled ≫= fun enabled => when enabled body) s Q.
Proof. intros Hb HQ. by apply (logs_only_guard _ Hb). Qed.

Lemma wp_loadTypesRegistryFile `{platform : Platform} path s Q :
  (forall w l registry, log_step (log s) l ->
     Q (Ok registry) (set_log l (set_world w s))) ->
  wp (loadTypesRegistryFile path) s Q.
Proof.
  intros HQ.
  assert (Hempty : forall text,
            wp (isEnabled ≫= fun enabled => when enabled (writeLine text)
                  ≫= fun _ => mret (∅ : gmap string json)) s Q).
  { intros text. apply wp_guard; [auto with logs|].
    intros w l S. by apply wp_ret, HQ. }
  unfold loadTypesRegistryFile. apply wp_bind, wp_gets.
  destruct (sys_fileExists path (world s)); simpl.
  - apply wp_try_catch, wp_bind, wp_gets, wp_bind, wp_liftResult.
    destruct (JSON_parse _) as [content|e]; [|apply Hempty].
    apply wp_bind, wp_liftResult.
    destruct (get_entries content) as [entries|e]; [|apply Hempty].
    apply wp_ret. rewrite <- (set_log_set_world_id s). apply HQ, log_step_refl.
  - apply Hempty.
Qed.

Lemma base_logged_run `{platform : Platform} failed s :
  exists l, base_logged failed s = set_log l s /\ log_step (log s) l.
Proof.
  destruct failed; cbn [base_logged].
  - eexists. split; [reflexivity|]. by split.
  - exists (log s). split; [by destruct s|apply log_step_refl].
Qed.

Lemma wp_super_constructor `{platform : Platform} cache safeList typesMap throttle s Q :
  (forall b w l, log_step (log s) l -> Q (Ok tt) (set_log l (set_base b (set_world w s)))) ->
  wp (super_constructor cache safeList typesMap throttle) s Q.
Proof.
  intros HQ. unfold super_constructor. apply wp_modify.
  destruct (TypingsInstaller_constructor _ _ _ _ _) as [[b w] failed].
  destruct (base_logged_run failed (set_base b (set_world w s))) as (l & -> & S).
  by apply HQ.
Qed.

Lemma wp_ensurePackageDirectoryExists `{platform : Platform} directory s Q :
  (forall b w l, log_step (log s) l -> Q (Ok tt) (set_log l (set_base b (set_world w s)))) ->
  wp (ensurePackageDirectoryExists directory) s Q.
Proof.
  intros HQ. unfold ensurePackageDirectoryExists. apply wp_modify.
  destruct (TypingsInstaller_ensurePackageDirectoryExists _ _ _) as [[b w] failed].
  destruct (base_logged_run failed (set_base b (set_world w s))) as (l & -> & S).
  by apply HQ.
Qed.

(** One step through a computation that does not branch. *)
Ltac wp_step :=
  lazymatch goal with
  | |- wp (mbind _ isEnabled) _ _ =>
      first [ apply wp_guard; [solve [auto 10 with logs] | intros ? ? ?]
            | apply wp_guard_last; [solve [auto 10 with logs] | intros ? ? ?] ]
  | |- wp (mbind _ _) _ _ => apply wp_bind
  | |- wp (mret _) _ _ => apply wp_ret
  | |- wp (gets _) _ _ => apply wp_gets
  | |- wp (modify _) _ _ => apply wp_modify
  | |- wp (throw _) _ _ => apply wp_throw
  | |- wp (liftResult _) _ _ => apply wp_liftResult
  | |- wp (try_catch _ _) _ _ => apply wp_try_catch
  | |- wp (sendResponse _) _ _ => apply wp_sendResponse; intros ? ? ?
  | |- wp (super_constructor _ _ _ _) _ _ => apply wp_super_constructor; intros ? ? ? ?
  | |- wp (ensurePackageDirectoryExists _) _ _ =>
      apply wp_ensurePackageDirectoryExists; intros ? ? ? ?
  | |- wp (loadTypesRegistryFile _) _ _ =>
      apply wp_loadTypesRegistryFile; intros ? ? ? ?
  end; cbv beta iota.

(** The two branches of an [if] that is not a logging guard. *)
Ltac wp_case H :=
  lazymatch goal with
  | |- wp (mbind _ (when _ _)) _ _ => apply wp_bind, wp_when; intros H; cbv beta iota
  | |- wp (when _ _) _ _ => apply wp_when; intros H; cbv beta iota
  end.

(** The call of the package manager, with what it returned. *)
Ltac wp_exec r w :=
  lazymatch goal with
  | |- wp (mbind _ (execSync _ _)) _ _ =>
      apply wp_bind, wp_execSync; intros r w _; cbv beta iota
  | |- wp (execSync _ _) _ _ => apply wp_execSync; intros r w _; cbv beta iota
  end.

Ltac simpl_state :=
  unfold set_world, set_log, add_event, set_base, set_npmPath, set_typesRegistry,
    set_delayedInitializationError in *;
  cbn [world log trace base npmPath typesRegistry delayedInitializationError
       uncaughtExceptionListener] in *.

Ltac wp_go := repeat (wp_step; simpl_state).

Ltac log_steps :=
  repeat first [ assumption | apply log_step_refl
               | eapply log_step_trans; [eassumption|] ].

(** ** The constructor *)

(** The constructor completes; it runs the update command once, records a
    delayed error exactly when that command throws, and leaves the trace
    otherwise alone. *)
Lemma constructor_spec `{platform : Platform} cache safeList typesMap npmLocation throttle s :
  exists w l b (r : Result string) registry,
    NodeTypingsInstaller_constructor cache safeList typesMap npmLocation throttle s =
      (Ok tt,
       {| world := w; log := l;
          trace := trace s ++ [EvExec (updateCommand (chosenNpmPath npmLocation))
                                 {| cwd := Some cache; stdio_ignore := true |} (isOk r)];
          base := b;
          npmPath := chosenNpmPath npmLocation;
          typesRegistry := registry;
          delayedInitializationError :=
            match r with
            | Ok _ => delayedInitializationError s
            | Throw e => Some (Exn_message e)
            end;
          uncaughtExceptionListener := uncaughtExceptionListener s |})
    /\ log_step (log s) l.
Proof.
  set (Q := fun (res : Result unit) (s' : State) =>
    exists w l b (r : Result string) registry,
      (res, s') =
        (Ok tt,
         {| world := w; log := l;
            trace := trace s ++ [EvExec (updateCommand (chosenNpmPath npmLocation))
                                   {| cwd := Some cache; stdio_ignore := true |} (isOk r)];
            base := b;
            npmPath := chosenNpmPath npmLocation;
            typesRegistry := registry;
            delayedInitializationError :=
              match r with
              | Ok _ => delayedInitializationError s
              | Throw e => Some (Exn_message e)
              end;
            uncaughtExceptionListener := uncaughtExceptionListener s |})
      /\ log_step (log s) l).
  assert (HQ : wp (NodeTypingsInstaller_constructor cache safeList typesMap npmLocation throttle) s Q).
  { unfold NodeTypingsInstaller_constructor.
    wp_go.
    assert (Hpath : forall c,
              stringContains (match npmLocation with
                              | Some location => location
                              | None => getDefaultNPMLocation process_argv0
                              end) " "
              && negb (bool_decide (Js.charAt0 (match npmLocation with
                              | Some location => location
                              | None => getDefaultNPMLocation process_argv0
                              end) = Some (Ascii.ascii_of_nat 34))) = c ->
              chosenNpmPath npmLocation =
                if c then Js.dquote +:+ (match npmLocation with
                              | Some location => location
                              | None => getDefaultNPMLocation process_argv0
                              end) +:+ Js.dquote
                else match npmLocation with
                              | Some location => location
                              | None => getDefaultNPMLocation process_argv0
                              end).
    { intros c <-. reflexivity. }
    wp_case Hc; wp_go; rewrite <- (Hpath _ Hc); clear Hpath Hc.
    all: wp_exec r wx; simpl_state.
    all: destruct r as [out|e]; cbv beta iota; wp_go.
    all: unfold Q.
    1, 3: eexists _, _, _, (Ok out), _.
    3, 4: eexists _, _, _, (Throw e), _.
    all: (split; [reflexivity|]).
    all: simpl_state; log_steps. }
  destruct (wp_run _ _ _ HQ) as (res & s' & E & w & l & b & r & registry & E' & S).
  exists w, l, b, r, registry. split; [|exact S]. rewrite E. exact E'.
Qed.

(** ** The default location of the package manager *)

(** C7 (as amended). When no location is given, the constructor takes the
    default derived from the program entry path: if the basename of the
    process name starts with [node], the quoted path joining the directory of
    [process.argv[0]] with [npm]; otherwise the bare name [npm]. *)
Theorem getDefaultNPMLocation_startsWith `{platform : Platform} :
  (forall processName,
     getDefaultNPMLocation processName =
       if String.prefix "node" (path_basename processName)
       then Js.dquote +:+ path_join (path_dirname process_argv0) "npm" +:+ Js.dquote
       else "npm") /\
  (forall cache safeList typesMap throttle s,
     npmPath (NodeTypingsInstaller_constructor cache safeList typesMap None throttle s).2
       = getDefaultNPMLocation process_argv0).
Proof.
  assert (Hdef : forall processName,
     getDefaultNPMLocation processName =
       if String.prefix "node" (path_basename processName)
       then Js.dquote +:+ path_join (path_dirname process_argv0) "npm" +:+ Js.dquote
       else "npm").
  { intros processName. unfold getDefaultNPMLocation.
    by rewrite indexOf_zero_prefix. }
  split; [exact Hdef|].
  intros cache safeList typesMap throttle s.
  destruct (constructor_spec cache safeList typesMap None throttle s)
    as (w & l & b & r & registry & -> & _).
  cbn [snd npmPath]. unfold chosenNpmPath. rewrite Hdef.
  destruct (String.prefix "node" (path_basename process_argv0)); [|reflexivity].
  rewrite (bool_decide_true (Js.charAt0 _ = _)) by reflexivity.
  by rewrite andb_false_r.
Qed.

(** A process called [mynode] contains [node] in its basename and still gets
    the bare command name. *)
Lemma getDefaultNPMLocation_contains_counterexample :
  stringContains (@path_basename Demo.platform "/usr/bin/mynode") "node" = true /\
  @getDefaultNPMLocation Demo.platform "/usr/bin/mynode" = "npm" /\
  @getDefaultNPMLocation Demo.platform "/usr/bin/mynode"
    <> Js.dquote +:+ @path_join Demo.platform
                       (@path_dirname Demo.platform (@process_argv0 Demo.platform)) "npm"
       +:+ Js.dquote.
Proof. repeat split. vm_compute. discriminate. Qed.

(** ** The install worker *)

(** A logging guard runs to completion and changes the machine and the log
    only, whatever follows it. *)
Lemma guard_run `{platform : Platform} (body : M State unit) s :
  logs_only body ->
  exists w l,
    log_step (log s) l /\
    forall A (rest : M State A),
      (isEnabled ≫= fun enabled => when enabled body ≫= fun _ => rest) s
        = rest (set_log l (set_world w s)).
Proof.
  intros Hb.
  destruct (wp_run (when (FileLog_isEnabled (log s)) body) s
              (fun r s' => exists w l, log_step (log s) l /\ r = Ok tt
                                       /\ s' = set_log l (set_world w s)))
    as (r & s' & E & w & l & S & -> & ->).
  { apply (logs_only_when _ _ Hb). intros w l S. by exists w, l. }
  exists w, l. split; [exact S|]. intros A rest.
  unfold mbind, M_bind, isEnabled, gets. by rewrite E.
Qed.

(** [installWorker] runs the command once and then calls its continuation
    once, as its last step, with whether the command completed. *)
Lemma installWorker_once `{platform : Platform} requestId packageNames cwd s :
  exists (r : Result string) w l,
    (forall onRequestCompleted,
       installWorker requestId packageNames cwd onRequestCompleted s =
         onRequestCompleted (isOk r)
           {| world := w; log := l;
              trace := trace s ++ [EvExec (installCommand (npmPath s) packageNames)
                                     {| cwd := cwd; stdio_ignore := false |} (isOk r)];
              base := base s; npmPath := npmPath s; typesRegistry := typesRegistry s;
              delayedInitializationError := delayedInitializationError s;
              uncaughtExceptionListener := uncaughtExceptionListener s |}) /\
    (exists before after,
       child_process_execSync (installCommand (npmPath s) packageNames)
         {| cwd := cwd; stdio_ignore := false |} before = (r, after)) /\
    log_step (log s) l.
Proof.
  unfold installWorker.
  match goal with
  | |- context [when _ ?body ≫= _] =>
      destruct (guard_run body s) as (w1 & l1 & S1 & E1); [auto with logs|]
  end.
  destruct (child_process_execSync (installCommand (npmPath s) packageNames)
              {| cwd := cwd; stdio_ignore := false |} w1) as [r w2] eqn:Ex.
  set (s2 := add_event (EvExec (installCommand (npmPath s) packageNames)
                          {| cwd := cwd; stdio_ignore := false |} (isOk r))
               (set_world w2 (set_log l1 (set_world w1 s)))).
  set (stdout := match r with Ok out => Some out | Throw e => Exn_stdout e end).
  set (stderr := match r with Ok _ => None | Throw e => Exn_stderr e end).
  destruct (guard_run
              (now ← gets (fun s => Date_now (world s));
               writeLine ("npm install #" +:+ Number_toString requestId +:+ " took: "
                          +:+ Number_toString (now - Date_now w1) +:+ " ms" +:+ sys_newLine
                          +:+ "stdout: " +:+ Js.interpolate stdout +:+ sys_newLine
                          +:+ "stderr: " +:+ Js.interpolate stderr)) s2)
    as (w3 & l3 & S3 & E3); [auto with logs|].
  exists r, w3, l3. split; [|split].
  - intros k. rewrite E1.
    unfold mbind at 1, M_bind at 1, gets at 1.
    unfold mbind at 1, M_bind at 1, gets at 1.
    unfold mbind at 1, M_bind at 1, try_catch at 1.
    unfold mbind at 1, M_bind at 1, execSync at 1.
    simpl_state. rewrite Ex.
    destruct r as [out|e]; cbn [mret M_ret fst snd]; simpl_state;
      subst stdout stderr; cbv beta iota in E3; rewrite E3;
      subst s2; simpl_state; reflexivity.
  - by exists w1, w2.
  - subst s2. simpl_state. exact (log_step_trans _ _ _ S1 S3).
Qed.

(** ** The listener *)

Lemma sendResponse_run `{platform : Platform} response s :
  exists w l,
    sendResponse response s =
      (Ok tt,
       {| world := w; log := l; trace := trace s ++ [EvSend response];
          base := base s; npmPath := npmPath s; typesRegistry := typesRegistry s;
          delayedInitializationError := delayedInitializationError s;
          uncaughtExceptionListener := uncaughtExceptionListener s |})
    /\ log_step (log s) l.
Proof.
  destruct (wp_run (sendResponse response) s
              (fun r s' => exists w l,
                 (r, s') = (Ok tt, set_log l (set_world w (add_event (EvSend response) s)))
                 /\ log_step (log s) l))
    as (r & s' & E & w & l & E' & S).
  { apply wp_sendResponse. intros w l S. by exists w, l. }
  exists w, l. split; [|exact S]. rewrite E, E'. reflexivity.
Qed.

Lemma send_all_run `{platform : Platform} (out : list BaseResponse) s :
  send_all out s =
    {| world := world s; log := log s;
       trace := trace s ++ map (fun r => EvSend (BaseInstallerResponse r)) out;
       base := base s; npmPath := npmPath s; typesRegistry := typesRegistry s;
       delayedInitializationError := delayedInitializationError s;
       uncaughtExceptionListener := uncaughtExceptionListener s |}.
Proof.
  unfold send_all. revert s. induction out as [|r out IH]; intros s; simpl.
  - rewrite app_nil_r. by destruct s.
  - rewrite IH. simpl_state. by rewrite <- app_assoc.
Qed.

Lemma dispatch_run `{platform : Platform} req s :
  exists r w l b tail,
    dispatch req s =
      (r,
       {| world := w; log := l; trace := trace s ++ tail;
          base := b; npmPath := npmPath s; typesRegistry := typesRegistry s;
          delayedInitializationError := delayedInitializationError s;
          uncaughtExceptionListener := uncaughtExceptionListener s |})
    /\ dispatched req s r tail
    /\ log_step (log s) l.
Proof.
  destruct req as [d|c| |fileName packageName projectRootPath|kind];
    unfold dispatch, dispatched.
  - unfold install, modify.
    destruct (TypingsInstaller_install _ _ _) as [[[b w] failed] out].
    match goal with
    | |- context [base_logged failed ?st] =>
        destruct (base_logged_run failed st) as (l & -> & S)
    end.
    rewrite send_all_run. simpl_state.
    exists (Ok tt), w, l, b, (EvInstall d :: map (fun x => EvSend (BaseInstallerResponse x)) out).
    split; [by rewrite <- app_assoc|]. split; [eauto|exact S].
  - unfold closeProject, modify.
    destruct (TypingsInstaller_closeProject _ _ _) as [[[b w] failed] out].
    match goal with
    | |- context [base_logged failed ?st] =>
        destruct (base_logged_run failed st) as (l & -> & S)
    end.
    rewrite send_all_run. simpl_state.
    exists (Ok tt), w, l, b, (EvCloseProject c :: map (fun x => EvSend (BaseInstallerResponse x)) out).
    split; [by rewrite <- app_assoc|]. split; [eauto|exact S].
  - unfold mbind, M_bind, gets.
    destruct (sendResponse_run
                (TypesRegistryResponse (typesRegistryObject (typesRegistry s))) s)
      as (w & l & -> & S).
    by exists (Ok tt), w, l, (base s),
         [EvSend (TypesRegistryResponse (typesRegistryObject (typesRegistry s)))].
  - unfold mbind at 1, M_bind at 1, gets at 1.
    destruct (installWorker_once (-1) [packageName]
                (Js.or (getDirectoryOfPackageJson fileName (world s)) projectRootPath) s)
      as (res & w1 & l1 & -> & (before & after & Ex) & S1).
    match goal with
    | |- context [sendResponse ?resp ?st] =>
        destruct (sendResponse_run resp st) as (w2 & l2 & -> & S2)
    end.
    simpl_state. exists (Ok tt), w2, l2, (base s). eexists. split; [|split].
    + rewrite <- app_assoc. reflexivity.
    + split; [done|]. by exists res, before, after.
    + exact (log_step_trans _ _ _ S1 S2).
  - exists (Throw (DebugFailure (Debug_assertNever_message (OtherKind kind)))),
      (world s), (log s), (base s), [].
    split; [|split; [done|apply log_step_refl]].
    unfold Debug_assertNever, throw. rewrite app_nil_r. by destruct s.
Qed.

(** Delivering the delayed error: it is sent if there is one, and there is
    none afterwards. *)
Lemma report_run `{platform : Platform} s :
  exists w l,
    reportDelayedInitializationError s =
      (Ok tt,
       {| world := w; log := l; trace := trace s ++ pendingEvents s;
          base := base s; npmPath := npmPath s; typesRegistry := typesRegistry s;
          delayedInitializationError := None;
          uncaughtExceptionListener := uncaughtExceptionListener s |})
    /\ log_step (log s) l
    /\ (delayedInitializationError s = None -> w = world s /\ l = log s).
Proof.
  unfold reportDelayedInitializationError, pendingEvents.
  unfold mbind at 1, M_bind at 1, gets at 1.
  destruct (delayedInitializationError s) as [message|] eqn:Ed.
  - unfold mbind, M_bind.
    destruct (sendResponse_run (InitializationFailedResponse message) s)
      as (w & l & -> & S).
    exists w, l. split; [reflexivity|]. split; [exact S|intros; discriminate].
  - exists (world s), (log s). repeat split; [|apply log_step_refl].
    rewrite app_nil_r. destruct s. simpl in *. by subst.
Qed.

Lemma onMessage_eq `{platform : Platform} req s :
  onMessage req s = dispatch req (reportDelayedInitializationError s).2.
Proof.
  unfold onMessage, reportDelayedInitializationError.
  cbv beta delta [mbind M_bind gets mret M_ret modify]. cbv beta iota.
  destruct (delayedInitializationError s) as [message|]; [|reflexivity].
  destruct (sendResponse_run (InitializationFailedResponse message) s)
    as (w & l & -> & _).
  reflexivity.
Qed.

(** The listener on any message: the delayed error first, then what the
    switch does; no error is pending afterwards. *)
Lemma onMessage_run `{platform : Platform} req s :
  exists r tail s1 s',
    onMessage req s = (r, s') /\
    (reportDelayedInitializationError s).2 = s1 /\
    dispatched req s1 r tail /\
    trace s1 = trace s ++ pendingEvents s /\
    trace s' = trace s ++ pendingEvents s ++ tail /\
    delayedInitializationError s' = None /\
    npmPath s1 = npmPath s /\ npmPath s' = npmPath s /\
    typesRegistry s1 = typesRegistry s /\ typesRegistry s' = typesRegistry s /\
    uncaughtExceptionListener s' = uncaughtExceptionListener s /\
    log_step (log s) (log s') /\
    (delayedInitializationError s = None -> world s1 = world s).
Proof.
  rewrite onMessage_eq.
  destruct (report_run s) as (w & l & -> & S & Hnone). cbn [snd].
  match goal with
  | |- context [dispatch req ?st] =>
      destruct (dispatch_run req st) as (r & w2 & l2 & b2 & tail & -> & D & S2)
  end.
  simpl_state.
  eexists r, tail, _, _. split; [reflexivity|]. split; [reflexivity|].
  simpl_state. rewrite <- app_assoc.
  split_and!; try done.
  - exact (log_step_trans _ _ _ S S2).
  - intros Hd. by destruct (Hnone Hd).
Qed.

(** C2. Every [installPackage] request is answered by exactly one
    package-installed response: the listener completes, and what it adds to
    the trace (after the delayed error, if one is pending) is one run of the
    install command followed by one response whose [success] is whether that
    run completed and whose message is [Package <name> installed.] or
    [There was an error installing <name>.] accordingly.  [installWorker]
    calls its continuation exactly once, as its last step, whatever the
    continuation is. *)
Theorem installPackage_one_response `{platform : Platform}
    (fileName packageName : string) (projectRootPath : option string) (s : State) :
  (exists command options (res : Result string) before after s',
     onMessage (InstallPackageRequest fileName packageName projectRootPath) s = (Ok tt, s') /\
     child_process_execSync command options before = (res, after) /\
     trace s' = trace s ++ pendingEvents s ++
       [EvExec command options (isOk res);
        EvSend (PackageInstalledResponse (isOk res)
                  (if isOk res
                   then "Package " +:+ packageName +:+ " installed."
                   else "There was an error installing " +:+ packageName +:+ "."))]) /\
  (forall requestId packageNames cwd,
     exists success s1,
       forall onRequestCompleted : bool -> M State unit,
         installWorker requestId packageNames cwd onRequestCompleted s
           = onRequestCompleted success s1).
Proof.
  split.
  - destruct (onMessage_run (InstallPackageRequest fileName packageName projectRootPath) s)
      as (r & tail & s1 & s' & E & _ & D & _ & T & _).
    destruct D as (-> & res & before & after & Ex & ->).
    eexists _, _, res, before, after, s'. split; [exact E|]. split; [exact Ex|].
    exact T.
  - intros requestId packageNames cwd.
    destruct (installWorker_once requestId packageNames cwd s) as (res & w & l & E & _).
    eexists _, _. exact E.
Qed.

(** ** The command line of the install worker *)

Lemma append_assoc (a b c : string) : (a +:+ b) +:+ c = a +:+ (b +:+ c).
Proof.
  induction a as [|x a IH]; [reflexivity|].
  change (String x ((a +:+ b) +:+ c) = String x (a +:+ (b +:+ c))). by f_equal.
Qed.

Lemma join_snoc2 (sep a b : string) (parts : list string) :
  parts <> [] ->
  Js.join sep (parts ++ [a; b]) = Js.join sep parts +:+ sep +:+ a +:+ sep +:+ b.
Proof.
  induction parts as [|p [|q rest] IH]; [done| |]; intros _.
  - reflexivity.
  - change (Js.join sep ((p :: q :: rest) ++ [a; b]))
      with (p +:+ sep +:+ Js.join sep ((q :: rest) ++ [a; b])).
    rewrite IH by done.
    change (Js.join sep (p :: q :: rest)) with (p +:+ sep +:+ Js.join sep (q :: rest)).
    by rewrite !append_assoc.
Qed.

(** The template literal of [installWorker] is the words of the command
    separated by single spaces, provided there is a package name. *)
Lemma installCommand_words `{platform : Platform} npm (packageNames : list string) :
  packageNames <> [] ->
  installCommand npm packageNames = Js.join " " (installCommandWords npm version packageNames).
Proof.
  intros Hne. unfold installCommand, installCommandWords.
  destruct packageNames as [|p rest]; [done|].
  change (Js.join " " ([npm; "install"; "--ignore-scripts"] ++ (p :: rest) ++ _))
    with (npm +:+ " " +:+ "install" +:+ " " +:+ "--ignore-scripts" +:+ " "
          +:+ Js.join " " ((p :: rest) ++
                ["--save-dev";
                 "--user-agent=" +:+ Js.dquote +:+ "typesInstaller/" +:+ version +:+ Js.dquote])).
  rewrite join_snoc2 by done. reflexivity.
Qed.

(** C8. For a non-empty sequence of package names, [installWorker] runs one
    command line: the package-manager path, [install], [--ignore-scripts],
    the package names in order, [--save-dev] and the user-agent flag naming
    the tool and its version, separated by single spaces; a single name is
    treated like any other sequence.  The continuation then runs on the
    result. *)
Theorem installWorker_command `{platform : Platform}
    (requestId : Z) (packageNames : list string) (cwd : option string) (s : State) :
  packageNames <> [] ->
  exists success s1,
    (forall onRequestCompleted : bool -> M State unit,
       installWorker requestId packageNames cwd onRequestCompleted s
         = onRequestCompleted success s1) /\
    trace s1 = trace s ++
      [EvExec (Js.join " "
                 ([npmPath s; "install"; "--ignore-scripts"] ++ packageNames
                  ++ ["--save-dev";
                      "--user-agent=" +:+ Js.dquote +:+ "typesInstaller/" +:+ version
                      +:+ Js.dquote]))
              {| cwd := cwd; stdio_ignore := false |} success].
Proof.
  intros Hne.
  destruct (installWorker_once requestId packageNames cwd s) as (res & w & l & E & _).
  eexists _, _. split; [exact E|].
  simpl_state. by rewrite (installCommand_words _ _ Hne).
Qed.

(** One package name on the demo machine. *)
Lemma installWorker_command_witness :
  exists success s1,
    (forall onRequestCompleted : bool -> M State unit,
       @installWorker Demo.platform (-1) ["react"] None onRequestCompleted
         (Demo.started None true true) = onRequestCompleted success s1) /\
    trace s1 = trace (Demo.started None true true) ++
      [EvExec (Js.join " "
                 ([npmPath (Demo.started None true true); "install"; "--ignore-scripts"]
                  ++ ["react"]
                  ++ ["--save-dev";
                      "--user-agent=" +:+ Js.dquote +:+ "typesInstaller/"
                      +:+ @version Demo.platform +:+ Js.dquote]))
              {| cwd := None; stdio_ignore := false |} success].
Proof.
  apply (@installWorker_command Demo.platform (-1) ["react"] None
           (Demo.started None true true)).
  discriminate.
Defined.

(** ** installPackage without a package root *)

(** C10. An [installPackage] request for which the resolver finds no
    [package.json] (or yields the empty string) and which carries no
    [projectRootPath] still runs the install command, with an absent working
    directory, and is answered. *)
Theorem installPackage_without_root `{platform : Platform}
    (fileName packageName : string) (s : State) :
  (let host := world (reportDelayedInitializationError s).2 in
   getDirectoryOfPackageJson fileName host = None \/
   getDirectoryOfPackageJson fileName host = Some EmptyString) ->
  exists command (res : Result string) s',
    onMessage (InstallPackageRequest fileName packageName None) s = (Ok tt, s') /\
    trace s' = trace s ++ pendingEvents s ++
      [EvExec command {| cwd := None; stdio_ignore := false |} (isOk res);
       EvSend (PackageInstalledResponse (isOk res)
                 (packageInstalledMessage (isOk res) packageName))].
Proof.
  intros Hroot.
  destruct (onMessage_run (InstallPackageRequest fileName packageName None) s)
    as (r & tail & s1 & s' & E & Es1 & D & _ & T & _).
  destruct D as (-> & res & before & after & _ & ->).
  exists (installCommand (npmPath s1) [packageName]), res, s'.
  split; [exact E|]. rewrite T. do 3 f_equal.
  cbv zeta in Hroot. rewrite Es1 in Hroot.
  by destruct Hroot as [-> | ->].
Qed.

(** A file under [/x], where no ancestor holds a [package.json]. *)
Lemma installPackage_without_root_witness :
  exists command (res : Result string) s',
    @onMessage Demo.platform (InstallPackageRequest "/x/file.ts" "react" None)
      (Demo.started None false true) = (Ok tt, s') /\
    trace s' = trace (Demo.started None false true) ++
      pendingEvents (Demo.started None false true) ++
      [EvExec command {| cwd := None; stdio_ignore := false |} (isOk res);
       EvSend (PackageInstalledResponse (isOk res)
                 (packageInstalledMessage (isOk res) "react"))].
Proof.
  apply (@installPackage_without_root Demo.platform "/x/file.ts" "react"
           (Demo.started None false true)).
  left. vm_compute. reflexivity.
Defined.

(** ** The registry file loader *)

Lemma logged_run `{platform : Platform} text s :
  exists w l,
    logged text s = (Ok tt, set_log l (set_world w s)) /\
    log_step (log s) l /\
    (FileLog_isEnabled (log s) = false -> set_log l (set_world w s) = s).
Proof.
  unfold logged, mbind, M_bind, isEnabled, gets.
  destruct (FileLog_isEnabled (log s)) eqn:En; cbn [when].
  - rewrite writeLine_eq.
    destruct (fs_appendFileSync _ _ _) as [[[]|e] w].
    + exists w, (log s). split; [done|]. split; [apply log_step_refl|done].
    + eexists w, _. split; [done|]. split; [by split|done].
  - exists (world s), (log s). rewrite set_log_set_world_id.
    split; [done|]. split; [apply log_step_refl|done].
Qed.

(** The loader, branch by branch. *)
Lemma loadTypesRegistryFile_eq `{platform : Platform} path s :
  loadTypesRegistryFile path s =
    if sys_fileExists path (world s) then
      match readEntries path (world s) with
      | Ok entries => (Ok (createMapFromTemplate entries), s)
      | Throw e =>
          (Ok ∅,
           (logged ("Error when loading types registry file '" +:+ path +:+ "': "
                    +:+ Exn_message e +:+ ", " +:+ Exn_stack e) s).2)
      end
    else
      (Ok ∅, (logged ("Types registry file '" +:+ path +:+ "' does not exist") s).2).
Proof.
  assert (Hlog : forall text,
            (isEnabled ≫= fun enabled => when enabled (writeLine text)
               ≫= fun _ => mret (∅ : gmap string json)) s
            = (Ok ∅, (logged text s).2)).
  { intros text. destruct (logged_run text s) as (w & l & E & _).
    revert E. unfold logged. cbv beta delta [mbind M_bind isEnabled gets mret M_ret].
    cbv beta iota. destruct (when _ _ s) as [[[]|e] s']; intros E; by simplify_eq. }
  unfold loadTypesRegistryFile, readEntries.
  unfold mbind at 1, M_bind at 1, gets at 1.
  destruct (sys_fileExists path (world s)); cbn [negb]; [|apply Hlog].
  unfold try_catch.
  unfold mbind at 1, M_bind at 1, gets at 1.
  unfold mbind at 1, M_bind at 1, liftResult at 1.
  destruct (JSON_parse _) as [content|e]; [|apply Hlog].
  unfold mbind at 1, M_bind at 1, liftResult at 1.
  destruct (get_entries content) as [entries|e]; [reflexivity|apply Hlog].
Qed.

Lemma property_is_Some (fields : list (string * json)) k v :
  (k, v) ∈ fields -> is_Some (property fields k).
Proof.
  induction fields as [|[k' v'] rest IH]; [by intros ?%elem_of_nil|].
  intros [E|Hin]%elem_of_cons; cbn [property].
  - injection E as -> ->. destruct (property rest k'); [eauto|].
    rewrite String.eqb_refl. eauto.
  - destruct (IH Hin) as [x ->]. eauto.
Qed.

Lemma ownEnumerableProperties_object_keys (fields : list (string * json)) :
  (ownEnumerableProperties (VJson (JObject fields))).*1 = fields.*1.
Proof.
  cbn [ownEnumerableProperties].
  assert (H : forall l : list (string * json),
            (forall k v, (k, v) ∈ l -> is_Some (property fields k)) ->
            (omap (fun '(k, _) => pair k <$> property fields k) l).*1 = l.*1).
  { induction l as [|[k v] l IH]; [done|]. intros Hl. cbn [omap list_omap].
    destruct (Hl k v) as [x ->]; [apply elem_of_cons; by left|].
    cbn. f_equal. apply IH. intros k' v' Hin. apply (Hl k' v'), elem_of_cons. by right. }
  apply H. intros k v. apply property_is_Some.
Qed.

Lemma dom_foldl_insert (l : list (string * json)) (m : gmap string json) :
  dom (foldl (fun m '(k, v) => <[k:=v]> m) m l) = list_to_set (l.*1) ∪ dom m.
Proof.
  revert m. induction l as [|[k v] l IH]; intros m; cbn [foldl fmap list_fmap list_to_set].
  - set_solver.
  - rewrite IH, dom_insert_L. set_solver.
Qed.

Lemma createMapFromTemplate_dom (template : JsValue) :
  dom (createMapFromTemplate template)
    = list_to_set ((ownEnumerableProperties template).*1).
Proof.
  unfold createMapFromTemplate. rewrite dom_foldl_insert, dom_empty_L. set_solver.
Qed.

(** C3. For a registry file that exists, parses, and is a record whose
    [entries] field is a mapping, loading completes, logs nothing, and gives
    a snapshot whose key set is exactly the key set of [entries]. *)
Theorem loadTypesRegistryFile_keys `{platform : Platform}
    (path : string) (s : State) (text : string) (fields entries : list (string * json)) :
  sys_fileExists path (world s) = true ->
  sys_readFile path (world s) = Some text ->
  JSON_parse text = Ok (JObject fields) ->
  property fields "entries" = Some (JObject entries) ->
  exists registry : gmap string json,
    loadTypesRegistryFile path s = (Ok registry, s) /\
    dom registry = list_to_set (entries.*1).
Proof.
  intros Hexists Hread Hparse Hentries.
  rewrite loadTypesRegistryFile_eq, Hexists. unfold readEntries.
  rewrite Hread. cbn [Js.interpolate]. rewrite Hparse. cbn [get_entries].
  rewrite Hentries. eexists. split; [reflexivity|].
  by rewrite createMapFromTemplate_dom, ownEnumerableProperties_object_keys.
Qed.

(** The registry file of the demo machine lists [lodash]. *)
Lemma loadTypesRegistryFile_keys_witness :
  exists registry : gmap string json,
    @loadTypesRegistryFile Demo.platform Demo.registryPath (Demo.started None true true)
      = (Ok registry, Demo.started None true true) /\
    dom registry = list_to_set ([("lodash", JNull)].*1).
Proof.
  apply (@loadTypesRegistryFile_keys Demo.platform Demo.registryPath
           (Demo.started None true true) Demo.registryText
           [("entries", JObject [("lodash", JNull)])] [("lodash", JNull)]);
    reflexivity.
Defined.







(** ** The package-root resolver *)

Lemma substring_0_length (n : nat) (s : string) :
  String.length (String.substring 0 n s) = Nat.min n (String.length s).
Proof.
  revert n. induction s as [|c s IH]; intros [|n]; cbn [String.substring String.length];
    try reflexivity.
  rewrite IH. reflexivity.
Qed.

Lemma substring_0_all (n : nat) (s : string) :
  (String.length s <= n)%nat -> String.substring 0 n s = s.
Proof.
  revert n. induction s as [|c s IH]; intros [|n]; cbn [String.substring String.length];
    intros Hn; try reflexivity; try lia.
  f_equal. apply IH. lia.
Qed.

(** Going to the parent shortens a path, unless the path is a root. *)
Lemma getDirectoryPath_shorter (path : string) :
  getDirectoryPath path <> path ->
  (String.length (getDirectoryPath path) < String.length path)%nat.
Proof.
  unfold getDirectoryPath, Js.substr0. intros Hne.
  set (n := Z.to_nat (Z.max (getRootLength path) (Js.lastIndexOf path directorySeparator))) in *.
  destruct (decide (String.length path <= n)%nat) as [Hle|Hgt].
  - by rewrite substring_0_all in Hne.
  - rewrite substring_0_length. lia.
Qed.

(** The walk returns the first result along the chain of ancestors. *)
Lemma forEachAncestorDirectory_from_chain {T} steps directory (callback : string -> option T) :
  forEachAncestorDirectory_from steps directory callback
    = head (omap callback (ancestorDirectories_from steps directory)).
Proof.
  revert directory. induction steps as [|steps IH]; intros directory;
    cbn [forEachAncestorDirectory_from ancestorDirectories_from].
  - destruct (callback directory) as [result|] eqn:E; repeat case_match;
      cbn [omap list_omap]; rewrite E; reflexivity.
  - destruct (callback directory) as [result|] eqn:E; repeat case_match;
      cbn [omap list_omap]; rewrite E; try reflexivity.
    apply IH.
Qed.

(** The chain starts at the directory itself, each next element is the
    parent of the one before and differs from it, and, when the number of
    steps is at least the length of the path, the chain ends at a root. *)
Lemma ancestorDirectories_from_chain steps directory :
  ancestorDirectories_from steps directory !! 0%nat = Some directory /\
  (forall i d d',
     ancestorDirectories_from steps directory !! i = Some d ->
     ancestorDirectories_from steps directory !! S i = Some d' ->
     d' = getDirectoryPath d /\ d' <> d) /\
  ((String.length directory <= steps)%nat ->
   forall d, last (ancestorDirectories_from steps directory) = Some d ->
             getDirectoryPath d = d).
Proof.
  revert directory. induction steps as [|steps IH]; intros directory;
    cbn [ancestorDirectories_from].
  - destruct (String.eqb_spec (getDirectoryPath directory) directory) as [Heq|Hne].
    + split; [done|]. split; [by intros [|i] d d' ? ?|].
      intros _ d [= <-]. exact Heq.
    + split; [done|]. split; [by intros [|i] d d' ? ?|].
      intros Hlen. pose proof (getDirectoryPath_shorter _ Hne). lia.
  - destruct (String.eqb_spec (getDirectoryPath directory) directory) as [Heq|Hne].
    + split; [done|]. split; [by intros [|i] d d' ? ?|].
      intros _ d [= <-]. exact Heq.
    + destruct (IH (getDirectoryPath directory)) as (H0 & Hstep & Hlast).
      split; [done|]. split.
      * intros [|i] d d' Hd Hd'.
        -- injection Hd as <-.
           assert (Some d' = Some (getDirectoryPath directory)) as [= ->]
             by (rewrite <- H0; symmetry; exact Hd').
           done.
        -- exact (Hstep i d d' Hd Hd').
      * intros Hlen d. pose proof (getDirectoryPath_shorter _ Hne).
        destruct (ancestorDirectories_from steps (getDirectoryPath directory))
          as [|x rest] eqn:E; [rewrite ?E in H0; discriminate H0|].
        rewrite last_cons_cons. apply Hlast. lia.
Qed.

(** The first element of a list that passes a test. *)
Lemma head_omap_test (test : string -> bool) (l : list string) :
  (forall d,
     head (omap (fun x => if test x then Some x else None) l) = Some d <->
     exists i, l !! i = Some d /\ test d = true /\
               forall j d', (j < i)%nat -> l !! j = Some d' -> test d' = false) /\
  (head (omap (fun x => if test x then Some x else None) l) = None <->
   forall d, d ∈ l -> test d = false).
Proof.
  induction l as [|x l [IHsome IHnone]].
  - split.
    + intros d. split; [done|]. by intros (i & ? & _).
    + split; [|done]. by intros _ d ?%elem_of_nil.
  - cbn [omap list_omap]. destruct (test x) eqn:Hx.
    + split.
      * intros d. cbn [head]. split.
        -- intros [= <-]. exists 0%nat. split; [done|]. split; [done|]. intros; lia.
        -- intros ([|i] & Hi & Hd & Hbefore).
           ++ by injection Hi as <-.
           ++ specialize (Hbefore 0%nat x). cbn in Hbefore.
              rewrite Hbefore in Hx; [done|lia|done].
      * cbn [head]. split; [done|]. intros Hall.
        rewrite (Hall x) in Hx; [done|]. apply elem_of_cons. by left.
    + split.
      * intros d. rewrite IHsome. split.
        -- intros (i & Hi & Hd & Hbefore). exists (S i). split; [done|]. split; [done|].
           intros [|j] d' Hj Hd'.
           ++ by injection Hd' as <-.
           ++ apply (Hbefore j); [lia|done].
        -- intros ([|i] & Hi & Hd & Hbefore).
           ++ injection Hi as <-. congruence.
           ++ exists i. split; [done|]. split; [done|].
              intros j d' Hj Hd'. apply (Hbefore (S j)); [lia|done].
      * rewrite IHnone. split.
        -- intros Hall d [->|Hin]%elem_of_cons; [done|by apply Hall].
        -- intros Hall d Hin. apply Hall, elem_of_cons. by right.
Qed.

(** C5. The resolver walks the chain of directories that starts at the
    directory containing the file, goes from each directory to its parent,
    and ends at the root; it returns the first directory of the chain in
    which [package.json] exists, and [undefined] exactly when no directory
    of the chain has it.  For [/a/b/c/file.ts] with the file absent from
    [/a/b/c] and present in [/a/b], it returns [/a/b]. *)
Theorem getDirectoryOfPackageJson_nearest `{platform : Platform}
    (fileName : string) (host : World) :
  let chain := ancestorDirectories (getDirectoryPath fileName) in
  (chain !! 0%nat = Some (getDirectoryPath fileName) /\
   (forall i d d', chain !! i = Some d -> chain !! S i = Some d' ->
                   d' = getDirectoryPath d /\ d' <> d) /\
   (forall d, last chain = Some d -> getDirectoryPath d = d)) /\
  (forall d,
     getDirectoryOfPackageJson fileName host = Some d <->
     exists i, chain !! i = Some d /\ hasPackageJson host d = true /\
               forall j d', (j < i)%nat -> chain !! j = Some d' ->
                            hasPackageJson host d' = false) /\
  (getDirectoryOfPackageJson fileName host = None <->
   forall d, d ∈ chain -> hasPackageJson host d = false) /\
  (sys_fileExists "/a/b/c/package.json" host = false ->
   sys_fileExists "/a/b/package.json" host = true ->
   getDirectoryOfPackageJson "/a/b/c/file.ts" host = Some "/a/b").
Proof.
  cbv zeta.
  assert (Heq : forall f,
            getDirectoryOfPackageJson f host =
              head (omap (fun x => if hasPackageJson host x then Some x else None)
                      (ancestorDirectories (getDirectoryPath f)))).
  { intros f. unfold getDirectoryOfPackageJson, forEachAncestorDirectory.
    by rewrite forEachAncestorDirectory_from_chain. }
  destruct (head_omap_test (hasPackageJson host)
              (ancestorDirectories (getDirectoryPath fileName))) as [Hsome Hnone].
  destruct (ancestorDirectories_from_chain
              (String.length (getDirectoryPath fileName)) (getDirectoryPath fileName))
    as (H0 & Hstep & Hlast).
  split_and!.
  - exact H0.
  - exact Hstep.
  - by apply Hlast.
  - intros d. rewrite Heq. apply Hsome.
  - rewrite Heq. apply Hnone.
  - intros Habsent Hpresent. rewrite Heq.
    change (ancestorDirectories (getDirectoryPath "/a/b/c/file.ts"))
      with ["/a/b/c"; "/a/b"; "/a"; "/"].
    cbn [omap list_omap]. unfold hasPackageJson.
    change (combinePaths "/a/b/c" "package.json") with "/a/b/c/package.json".
    change (combinePaths "/a/b" "package.json") with "/a/b/package.json".
    by rewrite Habsent, Hpresent.
Qed.

(** The demo machine has [/a/b/package.json] and nothing under [/a/b/c]. *)
Lemma getDirectoryOfPackageJson_nearest_witness :
  @getDirectoryOfPackageJson Demo.platform "/a/b/c/file.ts"
    (Demo.machine true true Demo.registryText) = Some "/a/b".
Proof.
  apply (proj2 (proj2 (proj2 (@getDirectoryOfPackageJson_nearest Demo.platform
           "/a/b/c/file.ts" (Demo.machine true true Demo.registryText)))));
    reflexivity.
Defined.

(** ** The event loop *)

Lemma initializationFailures_app `{platform : Platform} (a b : list Ev) :
  initializationFailures (a ++ b) = initializationFailures a ++ initializationFailures b.
Proof.
  induction a as [|ev a IH]; [done|].
  destruct ev as [[]| | |]; cbn [app initializationFailures]; by rewrite IH.
Qed.

Lemma initializationFailures_base `{platform : Platform} (out : list BaseResponse) :
  initializationFailures (map (fun x => EvSend (BaseInstallerResponse x)) out) = [].
Proof. induction out; [done|]. cbn [map initializationFailures]. done. Qed.

(** The switch never sends an initialization-failure response. *)
Lemma dispatched_no_failures `{platform : Platform} req s r tail :
  dispatched req s r tail -> initializationFailures tail = [].
Proof.
  destruct req; cbn [dispatched].
  - intros (_ & out & ->). apply initializationFailures_base.
  - intros (_ & out & ->). apply initializationFailures_base.
  - by intros (_ & ->).
  - by intros (_ & res & before & after & _ & ->).
  - by intros (_ & ->).
Qed.

Lemma writeLine_frame `{platform : Platform} text s :
  trace (writeLine text s).2 = trace s /\
  delayedInitializationError (writeLine text s).2 = delayedInitializationError s /\
  uncaughtExceptionListener (writeLine text s).2 = uncaughtExceptionListener s /\
  log_step (log s) (log (writeLine text s).2).
Proof.
  rewrite writeLine_eq. destruct (fs_appendFileSync _ _ _) as [[[]|e] w]; cbn.
  - split_and!; try done; apply log_step_refl.
  - split_and!; try done.
Qed.

(** What a run of the loop adds to the trace: if it starts with a message,
    the delayed error (if any) comes first; nothing else is an
    initialization failure.  The logger only moves forward. *)
Lemma run_trace `{platform : Platform} events s :
  exists added,
    trace (run events s) = trace s ++ added /\
    (delayedInitializationError s = None -> initializationFailures added = []) /\
    (forall req rest, events = Message req :: rest ->
       exists tail, added = pendingEvents s ++ tail /\ initializationFailures tail = []) /\
    log_step (log s) (log (run events s)).
Proof.
  revert s. induction events as [|[req|] events IH]; intros s.
  - exists []. cbn [run]. rewrite app_nil_r. split_and!; try done; apply log_step_refl.
  - destruct (onMessage_run req s)
      as (r & tail & s1 & s' & E & _ & D & _ & T & Hd & _ & _ & _ & _ & Hu & S & _).
    pose proof (dispatched_no_failures _ _ _ _ D) as Htail.
    assert (Hnext : exists more,
              trace (run (Message req :: events) s) = trace s' ++ more /\
              initializationFailures more = [] /\
              log_step (log s') (log (run (Message req :: events) s))).
    { cbn [run]. rewrite E. destruct r as [[]|e].
      - destruct (IH s') as (more & Tm & Hm & _ & Sm). exists more. auto.
      - destruct (uncaughtExceptionListener s').
        + destruct (writeLine_frame ("Unhandled exception: " +:+ Exn_message e
                                     +:+ " at " +:+ Exn_stack e) s')
            as (Tw & Dw & _ & Sw).
          match goal with
          | |- context [run events ?st] => destruct (IH st) as (more & Tm & Hm & _ & Sm)
          end.
          exists more. rewrite Tm, Tw. split; [done|]. split.
          * apply Hm. by rewrite Dw.
          * exact (log_step_trans _ _ _ Sw Sm).
        + exists []. rewrite app_nil_r. split_and!; try done; apply log_step_refl. }
    destruct Hnext as (more & Tm & Hm & Sm).
    exists (pendingEvents s ++ tail ++ more). split_and!.
    + rewrite Tm, T. by rewrite <- !app_assoc.
    + intros Hnone. unfold pendingEvents. rewrite Hnone.
      cbn [app]. by rewrite initializationFailures_app, Htail, Hm.
    + intros req' rest' [= <- <-]. exists (tail ++ more). split; [done|].
      by rewrite initializationFailures_app, Htail, Hm.
    + exact (log_step_trans _ _ _ S Sm).
  - cbn [run]. exists [].
    destruct (logged_run "Parent process has exited, shutting down..." s)
      as (w & l & E & S & _).
    unfold logged in E. rewrite E. cbn [snd]. simpl_state. rewrite app_nil_r.
    split_and!; try done.
Qed.

(** C1. Start-up completes and runs the registry update once.  If the
    update succeeded, no initialization-failure response is ever sent.  If it
    threw, then whatever the first message is, the first thing the process
    does on it is to send the initialization failure with the message of
    the exception, and nothing it does afterwards, on that message or any
    later event, sends one again. *)
Theorem delayedInitializationError_once `{platform : Platform}
    (logFilePath : option string) (globalTypingsCacheLocation : string)
    (typingSafeListLocation typesMapLocation npmLocation : option string) (w : World) :
  let boot := start logFilePath globalTypingsCacheLocation typingSafeListLocation
                typesMapLocation npmLocation w in
  exists update : Result string,
    boot.1 = Ok tt /\
    trace boot.2 =
      [EvExec (updateCommand (npmPath boot.2))
         {| cwd := Some globalTypingsCacheLocation; stdio_ignore := true |} (isOk update)] /\
    match update with
    | Ok _ =>
        delayedInitializationError boot.2 = None /\
        forall events, initializationFailures (trace (run events boot.2)) = []
    | Throw e =>
        delayedInitializationError boot.2 = Some (Exn_message e) /\
        forall req rest,
          exists tail,
            trace (run (Message req :: rest) boot.2) =
              trace boot.2 ++ EvSend (InitializationFailedResponse (Exn_message e)) :: tail /\
            initializationFailures tail = []
    end.
Proof.
  cbv zeta. unfold start.
  destruct (constructor_spec globalTypingsCacheLocation typingSafeListLocation
              typesMapLocation npmLocation 5 (initialState logFilePath w))
    as (w' & l & b & update & registry & -> & _).
  exists update. cbn [fst snd]. simpl_state. cbn [initialState trace app].
  split; [done|]. split; [done|].
  destruct update as [out|e]; cbn [initialState delayedInitializationError].
  - split; [done|]. intros events.
    match goal with
    | |- context [run events ?st] => destruct (run_trace events st) as (added & -> & H & _)
    end.
    simpl_state. cbn [app initializationFailures]. by apply H.
  - split; [done|]. intros req rest.
    match goal with
    | |- context [run _ ?st] =>
        destruct (run_trace (Message req :: rest) st) as (added & -> & _ & H & _)
    end.
    destruct (H req rest eq_refl) as (tail & -> & Htail).
    exists tail. split; [|exact Htail]. reflexivity.
Qed.

(** ** A message of an unknown kind *)

(** C6 (as amended). A message whose kind is none of the four declared ones
    makes the listener fail with the assertion of [Debug.assertNever], after
    the delayed error, if any, has been sent: the message is not silently
    ignored.  What follows depends on how the process was started: with no
    [uncaughtException] listener (no log file) the process ends there and
    handles nothing more; with one, the failure is written to the log and
    the loop goes on with the next event.  A message of a declared kind
    never reaches the assertion: the listener completes. *)
Theorem unknown_kind_asserts `{platform : Platform}
    (kind : string) (s : State) (rest : list HostEvent) :
  kind ∉ legalKinds ->
  let failure := DebugFailure (Debug_assertNever_message (OtherKind kind)) in
  (exists s',
     onMessage (OtherKind kind) s = (Throw failure, s') /\
     trace s' = trace s ++ pendingEvents s /\
     (uncaughtExceptionListener s = false ->
        run (Message (OtherKind kind) :: rest) s = s') /\
     (uncaughtExceptionListener s = true ->
        run (Message (OtherKind kind) :: rest) s =
          run rest (writeLine ("Unhandled exception: " +:+ Exn_message failure
                               +:+ " at " +:+ Exn_stack failure) s').2)) /\
  (forall req : Request,
     wellFormed req -> kind_of req ∈ legalKinds ->
     exists s'', onMessage req s = (Ok tt, s'')).
Proof.
  intros Hkind. cbv zeta. split.
  - destruct (onMessage_run (OtherKind kind) s)
      as (r & tail & s1 & s' & E & _ & D & _ & T & _ & _ & _ & _ & _ & Hu & _).
    destruct D as [-> ->]. rewrite app_nil_r in T.
    exists s'. split; [exact E|]. split; [exact T|].
    cbn [run]. rewrite E, Hu. split; by intros ->.
  - intros req Hwf Hlegal.
    destruct (onMessage_run req s) as (r & tail & s1 & s' & E & _ & D & _).
    exists s'. rewrite E. f_equal.
    destruct req; cbn [dispatched wellFormed kind_of] in D, Hwf, Hlegal;
      by destruct D as [-> _].
Qed.

(** An unknown kind on the demo machine started without a log file: the
    process ends on it. *)
Lemma unknown_kind_asserts_witness :
  exists s',
    @onMessage Demo.platform (OtherKind "bogus") (Demo.started None true true)
      = (Throw (DebugFailure (@Debug_assertNever_message Demo.platform (OtherKind "bogus"))),
         s') /\
    @run Demo.platform [Message (OtherKind "bogus"); Message TypesRegistryRequest]
      (Demo.started None true true) = s'.
Proof.
  destruct (proj1 (@unknown_kind_asserts Demo.platform "bogus"
                     (Demo.started None true true) [Message TypesRegistryRequest]
                     ltac:(apply (bool_decide_unpack _); vm_compute; exact I)))
    as (s' & E & _ & Hend & _).
  exists s'. split; [exact E|]. apply Hend. reflexivity.
Defined.

(** Started with a log file, the process does not end on a message of an
    unknown kind: it answers the request that follows. *)
Lemma unknown_kind_survives_counterexample :
  let s := Demo.started (Some "/tmp/ti.log") true true in
  ("bogus" ∉ legalKinds) /\
  (@onMessage Demo.platform (OtherKind "bogus") s).1
    = Throw (DebugFailure (@Debug_assertNever_message Demo.platform (OtherKind "bogus"))) /\
  trace (@run Demo.platform [Message (OtherKind "bogus"); Message TypesRegistryRequest] s)
    = trace s ++ [EvSend (TypesRegistryResponse (typesRegistryObject (typesRegistry s)))].
Proof.
  cbv zeta. split; [apply (bool_decide_unpack _); vm_compute; exact I|].
  split; vm_compute; reflexivity.
Qed.

(** ** The diagnostic sink *)

Lemma logs_only_writeLines `{platform : Platform} texts : logs_only (writeLines texts).
Proof. induction texts; simpl; auto with logs. Qed.

Lemma isEnabled_log_step (l l' : FileLog) :
  log_step l l' -> FileLog_isEnabled l = false -> FileLog_isEnabled l' = false.
Proof.
  unfold FileLog_isEnabled. intros [E D] H. rewrite E.
  destruct (logEnabled l) eqn:En.
  - simpl in H. rewrite H. apply andb_false_r.
  - by rewrite D.
Qed.

(** C9. The logger is a one-way state machine.  [writeLine] never raises.
    If no log file was configured, [isEnabled()] is false after any run of
    writes; once the append of a [writeLine] has failed, [isEnabled()] is
    false after that write and after any run of further writes; and a
    logger that is not enabled is not enabled after any run of writes, nor
    after anything the event loop does. *)
Theorem FileLog_one_way `{platform : Platform} (s : State) (texts : list string) :
  (forall text, exists s', writeLine text s = (Ok tt, s')) /\
  (logFile (log s) = None ->
     isEnabled (writeLines texts s).2 = (Ok false, (writeLines texts s).2)) /\
  (forall text,
     isOk (fs_appendFileSync (logFile (log s)) (text +:+ sys_newLine) (world s)).1 = false ->
     isEnabled (writeLine text s).2 = (Ok false, (writeLine text s).2) /\
     isEnabled (writeLines texts (writeLine text s).2).2
       = (Ok false, (writeLines texts (writeLine text s).2).2)) /\
  (isEnabled s = (Ok false, s) ->
     isEnabled (writeLines texts s).2 = (Ok false, (writeLines texts s).2) /\
     forall events, isEnabled (run events s) = (Ok false, run events s)).
Proof.
  assert (Hrun : forall s0, FileLog_isEnabled (log s0) = false ->
            isEnabled (writeLines texts s0).2 = (Ok false, (writeLines texts s0).2)).
  { intros s0 H0. unfold isEnabled, gets. do 2 f_equal.
    apply (logs_only_writeLines texts s0
             (fun _ s' => FileLog_isEnabled (log s') = false)).
    intros w l S. simpl. by apply (isEnabled_log_step (log s0)). }
  split; [|split; [|split]].
  - intros text. rewrite writeLine_eq.
    destruct (fs_appendFileSync _ _ _) as [[[]|e] w]; eauto.
  - intros Hfile. apply Hrun. unfold FileLog_isEnabled. rewrite Hfile.
    apply andb_false_r.
  - intros text Hfail.
    assert (Hoff : FileLog_isEnabled (log (writeLine text s).2) = false).
    { rewrite writeLine_eq. destruct (fs_appendFileSync _ _ _) as [[[]|e] w]; [done|].
      reflexivity. }
    split; [|by apply Hrun].
    unfold isEnabled, gets. by rewrite Hoff.
  - intros Hoff. unfold isEnabled, gets in Hoff.
    assert (Hoff' : FileLog_isEnabled (log s) = false) by by simplify_eq.
    split; [by apply Hrun|].
    intros events. destruct (run_trace events s) as (added & _ & _ & _ & S).
    unfold isEnabled, gets. by rewrite (isEnabled_log_step _ _ S Hoff').
Qed.

(** On a machine whose log file cannot be written, the first write disables
    the logger for good. *)
Lemma FileLog_one_way_witness :
  let s := @initialState Demo.platform (Some "/tmp/ti.log") (Demo.machine true false Demo.registryText) in
  @isEnabled Demo.platform s = (Ok true, s) /\
  @isEnabled Demo.platform (writeLines ["b"; "c"] (writeLine "a" s).2).2
    = (Ok false, (writeLines ["b"; "c"] (writeLine "a" s).2).2).
Proof.
  split; [reflexivity|].
  apply (proj1 (proj2 (proj2 (@FileLog_one_way Demo.platform
           (@initialState Demo.platform (Some "/tmp/ti.log") (Demo.machine true false Demo.registryText)) ["b"; "c"]))) "a").
  reflexivity.
Defined.

(** ** The scenarios of the specification, run on the demo machine *)

(** The registry package lists [lodash]: the snapshot has that one key, and
    a [typesRegistry] request is answered with it. *)
Example scenario_registry_lodash :
  typesRegistry (Demo.started None true true) = {[ "lodash" := JNull ]} /\
  trace (@run Demo.platform [Message TypesRegistryRequest] (Demo.started None true true))
    = [EvExec (Demo.quoted "/usr/bin/npm" +:+ " install --ignore-scripts types-registry")
         {| cwd := Some "/cache"; stdio_ignore := true |} true;
       EvSend (TypesRegistryResponse {[ "lodash" := JNull ]})].
Proof. split; vm_compute; reflexivity. Qed.

(** The update fails at start-up: the first message is answered by the
    initialization failure and then by its own response. *)
Example scenario_bootstrap_failure :
  trace (@run Demo.platform [Message TypesRegistryRequest; Message TypesRegistryRequest]
           (Demo.started None false true))
    = [EvExec (Demo.quoted "/usr/bin/npm" +:+ " install --ignore-scripts types-registry")
         {| cwd := Some "/cache"; stdio_ignore := true |} false;
       EvSend (InitializationFailedResponse "network unreachable");
       EvSend (TypesRegistryResponse {[ "lodash" := JNull ]});
       EvSend (TypesRegistryResponse {[ "lodash" := JNull ]})].
Proof. vm_compute. reflexivity. Qed.

(** Installing [react] for a file under [/a/b/c] when the package manager
    fails: after the delayed error, the command runs in [/a/b] and the
    response reports the failure. *)
Example scenario_install_failure :
  trace (@run Demo.platform [Message (InstallPackageRequest "/a/b/c/file.ts" "react" None)]
           (Demo.started None false true))
    = [EvExec (Demo.quoted "/usr/bin/npm" +:+ " install --ignore-scripts types-registry")
         {| cwd := Some "/cache"; stdio_ignore := true |} false;
       EvSend (InitializationFailedResponse "network unreachable");
       EvExec (Demo.quoted "/usr/bin/npm"
               +:+ " install --ignore-scripts react --save-dev --user-agent="
               +:+ Demo.quoted "typesInstaller/2.7.0")
         {| cwd := Some "/a/b"; stdio_ignore := false |} false;
       EvSend (PackageInstalledResponse false "There was an error installing react.")].
Proof. vm_compute. reflexivity. Qed.

(** * Further properties of the code *)

(** ** The logger, one write at a time *)

(** After a write the logger is enabled exactly when it was enabled before
    and the append did not throw; the write is attempted whether or not the
    logger is enabled, and the log file never changes. *)
Theorem writeLine_enabled_iff `{platform : Platform} (text : string) (s : State) :
  FileLog_isEnabled (log (writeLine text s).2)
    = FileLog_isEnabled (log s)
      && isOk (fs_appendFileSync (logFile (log s)) (text +:+ sys_newLine) (world s)).1 /\
  world (writeLine text s).2
    = (fs_appendFileSync (logFile (log s)) (text +:+ sys_newLine) (world s)).2 /\
  logFile (log (writeLine text s).2) = logFile (log s).
Proof.
  rewrite writeLine_eq.
  destruct (fs_appendFileSync _ _ _) as [[[]|e] w]; cbn.
  - by rewrite andb_true_r.
  - by rewrite andb_false_r.
Qed.

(** ** The default location of the package manager, continued *)

(** The directory of the default location comes from [process.argv[0]], not
    from the process name given: two process names whose basenames both
    start with [node] get the same location. *)
Theorem getDefaultNPMLocation_same_directory `{platform : Platform}
    (processName1 processName2 : string) :
  String.prefix "node" (path_basename processName1) = true ->
  String.prefix "node" (path_basename processName2) = true ->
  getDefaultNPMLocation processName1 = getDefaultNPMLocation processName2.
Proof.
  intros H1 H2. unfold getDefaultNPMLocation.
  by rewrite !indexOf_zero_prefix, H1, H2.
Qed.

Lemma getDefaultNPMLocation_same_directory_witness :
  @getDefaultNPMLocation Demo.platform "/opt/other/nodejs"
    = @getDefaultNPMLocation Demo.platform "/usr/bin/node".
Proof.
  apply (@getDefaultNPMLocation_same_directory Demo.platform); reflexivity.
Defined.

(** ** The path of the package manager after construction *)

(** The path the constructor stores either has no space in it or starts
    with a double quote; an explicit location without a space is stored as
    it is, and one with a space and no leading quote is stored between
    quotes. *)
Theorem npmPath_safe `{platform : Platform} cache safeList typesMap
    (npmLocation : option string) throttle (s : State) :
  let path := npmPath (NodeTypingsInstaller_constructor cache safeList typesMap
                         npmLocation throttle s).2 in
  (stringContains path " " = false \/ Js.charAt0 path = Some (Ascii.ascii_of_nat 34)) /\
  (forall location, npmLocation = Some location ->
     stringContains location " " = false -> path = location) /\
  (forall location, npmLocation = Some location ->
     stringContains location " " = true ->
     Js.charAt0 location <> Some (Ascii.ascii_of_nat 34) ->
     path = Js.dquote +:+ location +:+ Js.dquote).
Proof.
  cbv zeta.
  destruct (constructor_spec cache safeList typesMap npmLocation throttle s)
    as (w & l & b & r & registry & -> & _).
  cbn [snd npmPath]. unfold chosenNpmPath.
  set (path := match npmLocation with
               | Some location => location
               | None => getDefaultNPMLocation process_argv0
               end).
  split_and!.
  - destruct (stringContains path " ") eqn:Hspace; cbn [andb]; [|by left].
    destruct (bool_decide (Js.charAt0 path = Some (Ascii.ascii_of_nat 34))) eqn:Hq;
      cbn [negb].
    + right. by apply bool_decide_eq_true in Hq.
    + right. reflexivity.
  - intros location -> Hspace. subst path. by rewrite Hspace.
  - intros location -> Hspace Hq. subst path. rewrite Hspace.
    by rewrite bool_decide_false.
Qed.

Lemma npmPath_safe_witness :
  npmPath (@NodeTypingsInstaller_constructor Demo.platform "/cache" None None
             (Some "/opt/my tools/npm") 5
             (@initialState Demo.platform None (Demo.machine true true Demo.registryText))).2
    = Js.dquote +:+ "/opt/my tools/npm" +:+ Js.dquote.
Proof.
  apply (proj2 (proj2 (@npmPath_safe Demo.platform "/cache" None None
           (Some "/opt/my tools/npm") 5
           (@initialState Demo.platform None (Demo.machine true true Demo.registryText))))
           "/opt/my tools/npm" eq_refl); [reflexivity|discriminate].
Defined.

(** ** What the event loop keeps *)

Lemma writeLine_fields `{platform : Platform} text s :
  npmPath (writeLine text s).2 = npmPath s /\
  typesRegistry (writeLine text s).2 = typesRegistry s /\
  base (writeLine text s).2 = base s.
Proof.
  rewrite writeLine_eq. by destruct (fs_appendFileSync _ _ _) as [[[]|e] w].
Qed.

Lemma run_fields `{platform : Platform} events s :
  typesRegistry (run events s) = typesRegistry s /\
  npmPath (run events s) = npmPath s /\
  uncaughtExceptionListener (run events s) = uncaughtExceptionListener s.
Proof.
  revert s. induction events as [|[req|] events IH]; intros s; cbn [run].
  - done.
  - destruct (onMessage_run req s)
      as (r & tail & s1 & s' & E & _ & _ & _ & _ & _ & _ & Hn & _ & Hr & Hu & _).
    rewrite E. destruct r as [[]|e].
    + destruct (IH s') as (-> & -> & ->). auto.
    + destruct (uncaughtExceptionListener s') eqn:Hl; [|rewrite <- Hu; auto].
      match goal with
      | |- context [run events ?st] => destruct (IH st) as (-> & -> & ->)
      end.
      destruct (writeLine_fields ("Unhandled exception: " +:+ Exn_message e
                                  +:+ " at " +:+ Exn_stack e) s') as (-> & -> & _).
      destruct (writeLine_frame ("Unhandled exception: " +:+ Exn_message e
                                 +:+ " at " +:+ Exn_stack e) s') as (_ & _ & -> & _).
      rewrite Hl, <- Hu. auto.
  - destruct (logged_run "Parent process has exited, shutting down..." s)
      as (w & l & E & _). unfold logged in E. by rewrite E.
Qed.

(** The registry snapshot and the path of the package manager are set once:
    whatever events the loop handles, in whatever order and however they
    end, both are afterwards what they were before. *)
Theorem run_keeps_registry `{platform : Platform} (events : list HostEvent) (s : State) :
  typesRegistry (run events s) = typesRegistry s /\
  npmPath (run events s) = npmPath s.
Proof. destruct (run_fields events s) as (Hr & Hn & _). by split. Qed.

(** An [uncaughtException] listener is registered exactly when a log file
    is configured, and the event loop never adds or removes it. *)
Theorem uncaughtExceptionListener_iff_logFile `{platform : Platform}
    (logFilePath : option string) (globalTypingsCacheLocation : string)
    (typingSafeListLocation typesMapLocation npmLocation : option string) (w : World)
    (events : list HostEvent) :
  let boot := (start logFilePath globalTypingsCacheLocation typingSafeListLocation
                 typesMapLocation npmLocation w).2 in
  (uncaughtExceptionListener boot = true <-> logFilePath <> None) /\
  uncaughtExceptionListener (run events boot) = uncaughtExceptionListener boot.
Proof.
  cbv zeta. split; [|apply run_fields].
  unfold start.
  destruct (constructor_spec globalTypingsCacheLocation typingSafeListLocation
              typesMapLocation npmLocation 5 (initialState logFilePath w))
    as (w' & l & b & update & registry & -> & _).
  cbn. by rewrite bool_decide_eq_true.
Qed.

(** When the host disconnects the process sends nothing and handles no
    later event: a delayed error that is still pending is not delivered. *)
Theorem disconnect_ends `{platform : Platform} (rest : list HostEvent) (s : State) :
  trace (run (Disconnect :: rest) s) = trace s /\
  delayedInitializationError (run (Disconnect :: rest) s) = delayedInitializationError s /\
  run (Disconnect :: rest) s = run [Disconnect] s.
Proof.
  cbn [run].
  destruct (logged_run "Parent process has exited, shutting down..." s)
    as (w & l & E & _). unfold logged in E. by rewrite E.
Qed.

(** ** Responses *)

(** [sendResponse] completes and puts exactly the given response on the
    channel, leaving the fields of the installer alone; with logging
    disabled it does nothing else. *)
Theorem sendResponse_sends_once `{platform : Platform} (response : Response) (s : State) :
  exists s',
    sendResponse response s = (Ok tt, s') /\
    trace s' = trace s ++ [EvSend response] /\
    npmPath s' = npmPath s /\ typesRegistry s' = typesRegistry s /\
    delayedInitializationError s' = delayedInitializationError s /\
    (FileLog_isEnabled (log s) = false -> s' = add_event (EvSend response) s).
Proof.
  destruct (sendResponse_run response s) as (w & l & E & _).
  eexists. split; [exact E|]. split_and!; try done.
  intros Hoff. revert E. unfold sendResponse, process_send.
  cbv beta delta [mbind M_bind isEnabled gets modify mret M_ret]. cbv beta iota.
  rewrite Hoff. cbn [when mret M_ret]. cbv beta iota.
  replace (FileLog_isEnabled (log (add_event (EvSend response) s))) with false
    by (symmetry; exact Hoff).
  cbn [when]. unfold mret, M_ret. intros E.
  apply (f_equal snd) in E. cbn [snd] in E. by rewrite <- E.
Qed.

Lemma sendResponse_sends_once_witness :
  exists s',
    @sendResponse Demo.platform (PackageInstalledResponse true "done")
      (Demo.started None true true) = (Ok tt, s') /\
    s' = add_event (EvSend (PackageInstalledResponse true "done"))
           (Demo.started None true true).
Proof.
  destruct (@sendResponse_sends_once Demo.platform (PackageInstalledResponse true "done")
              (Demo.started None true true)) as (s' & E & _ & _ & _ & _ & Hoff).
  exists s'. split; [exact E|]. apply Hoff. reflexivity.
Defined.

(** Filling the plain object from the map copies every key but
    [__proto__]. *)
Lemma typesRegistryObject_delete (registry : gmap string json) :
  typesRegistryObject registry = delete "__proto__" registry.
Proof.
  unfold typesRegistryObject.
  apply (map_fold_weak_ind (fun object m => object = delete "__proto__" m)).
  - by rewrite delete_empty.
  - intros key value m object Hfresh ->. unfold assignProperty.
    destruct (String.eqb_spec key "__proto__") as [->|Hne].
    + apply map_eq. intros k. destruct (decide (k = "__proto__")) as [->|Hk].
      * by rewrite !lookup_delete_eq.
      * by rewrite !lookup_delete_ne, lookup_insert_ne.
    + apply map_eq. intros k. destruct (decide (k = "__proto__")) as [->|Hk].
      * by rewrite lookup_insert_ne, !lookup_delete_eq.
      * rewrite lookup_delete_ne by done.
        destruct (decide (k = key)) as [->|Hkey].
        -- by rewrite !lookup_insert_eq.
        -- by rewrite !lookup_insert_ne, lookup_delete_ne.
Qed.

(** A [typesRegistry] request is answered, after the delayed error if one
    is pending, by one response, and no command is run.  The response
    carries the snapshot copied into a plain object: every key of the
    snapshot other than [__proto__] with its value, and no own [__proto__];
    so a snapshot without that key is sent as it is held.  The snapshot
    stays. *)
Theorem typesRegistry_answered `{platform : Platform} (s : State) :
  exists s' (object : gmap string json),
    onMessage TypesRegistryRequest s = (Ok tt, s') /\
    trace s' = trace s ++ pendingEvents s ++ [EvSend (TypesRegistryResponse object)] /\
    (forall key, key <> "__proto__" -> object !! key = typesRegistry s !! key) /\
    object !! "__proto__" = None /\
    (typesRegistry s !! "__proto__" = None -> object = typesRegistry s) /\
    typesRegistry s' = typesRegistry s.
Proof.
  destruct (onMessage_run TypesRegistryRequest s)
    as (r & tail & s1 & s' & E & _ & D & _ & T & _ & _ & _ & Hr1 & Hr & _).
  destruct D as [-> ->]. exists s', (typesRegistryObject (typesRegistry s1)).
  rewrite Hr1 in T |- *. split; [exact E|]. split; [exact T|].
  rewrite typesRegistryObject_delete. split_and!.
  - intros key Hkey. by rewrite lookup_delete_ne.
  - by rewrite lookup_delete_eq.
  - intros Hnone. by apply delete_id.
  - by rewrite Hr.
Qed.

(** ** The working directory of an install *)

(** If the resolver finds a package root for the file, the install command
    runs there, whatever [projectRootPath] the request carries. *)
Theorem installPackage_in_package_root `{platform : Platform}
    (fileName packageName directory : string) (projectRootPath : option string) (s : State) :
  getDirectoryOfPackageJson fileName (world (reportDelayedInitializationError s).2)
    = Some directory ->
  directory <> EmptyString ->
  exists command (res : Result string) s',
    onMessage (InstallPackageRequest fileName packageName projectRootPath) s = (Ok tt, s') /\
    trace s' = trace s ++ pendingEvents s ++
      [EvExec command {| cwd := Some directory; stdio_ignore := false |} (isOk res);
       EvSend (PackageInstalledResponse (isOk res)
                 (packageInstalledMessage (isOk res) packageName))].
Proof.
  intros Hroot Hne.
  destruct (onMessage_run (InstallPackageRequest fileName packageName projectRootPath) s)
    as (r & tail & s1 & s' & E & Es1 & D & _ & T & _).
  destruct D as (-> & res & before & after & _ & ->).
  exists (installCommand (npmPath s1) [packageName]), res, s'.
  split; [exact E|]. rewrite T. do 3 f_equal.
  rewrite Es1 in Hroot. rewrite Hroot.
  by destruct directory.
Qed.

Lemma installPackage_in_package_root_witness :
  exists command (res : Result string) s',
    @onMessage Demo.platform
      (InstallPackageRequest "/a/b/c/file.ts" "react" (Some "/elsewhere"))
      (Demo.started None true true) = (Ok tt, s') /\
    trace s' = trace (Demo.started None true true) ++
      pendingEvents (Demo.started None true true) ++
      [EvExec command {| cwd := Some "/a/b"; stdio_ignore := false |} (isOk res);
       EvSend (PackageInstalledResponse (isOk res)
                 (packageInstalledMessage (isOk res) "react"))].
Proof.
  apply (@installPackage_in_package_root Demo.platform "/a/b/c/file.ts" "react" "/a/b"
           (Some "/elsewhere") (Demo.started None true true)).
  - vm_compute. reflexivity.
  - discriminate.
Defined.

(** If the resolver finds no package root (or the empty string), the install
    command runs in the [projectRootPath] of the request. *)
Theorem installPackage_in_project_root `{platform : Platform}
    (fileName packageName : string) (projectRootPath : option string) (s : State) :
  (getDirectoryOfPackageJson fileName (world (reportDelayedInitializationError s).2) = None \/
   getDirectoryOfPackageJson fileName (world (reportDelayedInitializationError s).2)
     = Some EmptyString) ->
  exists command (res : Result string) s',
    onMessage (InstallPackageRequest fileName packageName projectRootPath) s = (Ok tt, s') /\
    trace s' = trace s ++ pendingEvents s ++
      [EvExec command {| cwd := projectRootPath; stdio_ignore := false |} (isOk res);
       EvSend (PackageInstalledResponse (isOk res)
                 (packageInstalledMessage (isOk res) packageName))].
Proof.
  intros Hroot.
  destruct (onMessage_run (InstallPackageRequest fileName packageName projectRootPath) s)
    as (r & tail & s1 & s' & E & Es1 & D & _ & T & _).
  destruct D as (-> & res & before & after & _ & ->).
  exists (installCommand (npmPath s1) [packageName]), res, s'.
  split; [exact E|]. rewrite T. do 3 f_equal.
  rewrite Es1 in Hroot. by destruct Hroot as [-> | ->].
Qed.

Lemma installPackage_in_project_root_witness :
  exists command (res : Result string) s',
    @onMessage Demo.platform
      (InstallPackageRequest "/x/file.ts" "react" (Some "/x"))
      (Demo.started None true true) = (Ok tt, s') /\
    trace s' = trace (Demo.started None true true) ++
      pendingEvents (Demo.started None true true) ++
      [EvExec command {| cwd := Some "/x"; stdio_ignore := false |} (isOk res);
       EvSend (PackageInstalledResponse (isOk res)
                 (packageInstalledMessage (isOk res) "react"))].
Proof.
  apply (@installPackage_in_project_root Demo.platform "/x/file.ts" "react"
           (Some "/x") (Demo.started None true true)).
  left. vm_compute. reflexivity.
Defined.

(** ** The command line for no package names *)

(** [installWorker] does not check that it was given a name: for an empty
    list it still runs the command, with nothing between [--ignore-scripts]
    and [--save-dev] but two spaces, and calls its continuation; that
    command is not the words of the command separated by single spaces. *)
Theorem installWorker_no_names `{platform : Platform}
    (requestId : Z) (cwd : option string) (s : State) :
  (exists success s1,
     (forall onRequestCompleted : bool -> M State unit,
        installWorker requestId [] cwd onRequestCompleted s
          = onRequestCompleted success s1) /\
     trace s1 = trace s ++
       [EvExec (npmPath s +:+ " install --ignore-scripts  --save-dev --user-agent="
                +:+ Js.dquote +:+ "typesInstaller/" +:+ version +:+ Js.dquote)
               {| cwd := cwd; stdio_ignore := false |} success]) /\
  installCommand (npmPath s) []
    <> Js.join " " (installCommandWords (npmPath s) version []).
Proof.
  split.
  - destruct (installWorker_once requestId [] cwd s) as (res & w & l & E & _).
    eexists _, _. split; [exact E|]. reflexivity.
  - unfold installCommand, installCommandWords.
    change (Js.join " " ([npmPath s; "install"; "--ignore-scripts"] ++ [] ++ _))
      with (npmPath s +:+ " install --ignore-scripts --save-dev "
            +:+ "--user-agent=" +:+ Js.dquote +:+ "typesInstaller/" +:+ version
            +:+ Js.dquote).
    intros H. apply (inj (String.append (npmPath s))) in H.
    cbn in H. discriminate H.
Qed.

(** ** The values of the snapshot *)

Lemma property_elem_of (fields : list (string * json)) k v :
  property fields k = Some v -> (k, v) ∈ fields.
Proof.
  induction fields as [|[k' v'] rest IH]; cbn [property]; [done|].
  destruct (property rest k) as [x|] eqn:E.
  - intros [= ->]. apply elem_of_cons. right. by apply IH.
  - destruct (String.eqb_spec k' k) as [->|]; [|done].
    intros [= ->]. apply elem_of_cons. by left.
Qed.

Lemma lookup_foldl_insert (f : string -> option json) (l : list (string * json))
    (m : gmap string json) k :
  (forall k' v, (k', v) ∈ l -> f k' = Some v) ->
  foldl (fun m '(k, v) => <[k:=v]> m) m l !! k
    = if decide (k ∈ l.*1) then f k else m !! k.
Proof.
  revert m. induction l as [|[k1 v1] l IH]; intros m Hl.
  - cbn [foldl fmap list_fmap]. by rewrite decide_False by apply not_elem_of_nil.
  - cbn [foldl fmap list_fmap]. rewrite IH.
    2:{ intros k' v Hin. apply Hl, elem_of_cons. by right. }
    destruct (decide (k ∈ l.*1)) as [Hin|Hnin].
    + rewrite decide_True; [done|]. apply elem_of_cons. by right.
    + destruct (decide (k = k1)) as [->|Hne].
      * rewrite decide_True by (apply elem_of_cons; by left).
        rewrite lookup_insert_eq. symmetry. apply Hl, elem_of_cons. by left.
      * rewrite lookup_insert_ne by done.
        rewrite decide_False; [done|].
        intros [?|?]%elem_of_cons; done.
Qed.

(** For a registry file of the expected shape the snapshot maps every key of
    [entries] to the value [entries] has for it (the last one, if the
    document repeats a key), and has no other key. *)
Theorem loadTypesRegistryFile_values `{platform : Platform}
    (path : string) (s : State) (text : string) (fields entries : list (string * json)) :
  sys_fileExists path (world s) = true ->
  sys_readFile path (world s) = Some text ->
  JSON_parse text = Ok (JObject fields) ->
  property fields "entries" = Some (JObject entries) ->
  exists registry : gmap string json,
    loadTypesRegistryFile path s = (Ok registry, s) /\
    forall key, registry !! key = property entries key.
Proof.
  intros Hexists Hread Hparse Hentries.
  rewrite loadTypesRegistryFile_eq, Hexists. unfold readEntries.
  rewrite Hread. cbn [Js.interpolate]. rewrite Hparse. cbn [get_entries].
  rewrite Hentries. eexists. split; [reflexivity|].
  intros key. unfold createMapFromTemplate.
  rewrite (lookup_foldl_insert (property entries)).
  - rewrite ownEnumerableProperties_object_keys, lookup_empty.
    destruct (decide (key ∈ entries.*1)) as [Hin|Hnin]; [done|].
    destruct (property entries key) as [v|] eqn:E; [|done].
    exfalso. apply Hnin. apply property_elem_of in E.
    apply list_elem_of_fmap. by exists (key, v).
  - cbn [ownEnumerableProperties]. intros k' v Hin.
    apply list_elem_of_omap in Hin as ([k2 v2] & _ & Hk).
    destruct (property entries k2) as [x|] eqn:E; cbn in Hk; [|done].
    by injection Hk as <- <-.
Qed.

Lemma loadTypesRegistryFile_values_witness :
  exists registry : gmap string json,
    @loadTypesRegistryFile Demo.platform Demo.registryPath (Demo.started None true true)
      = (Ok registry, Demo.started None true true) /\
    forall key, registry !! key = property [("lodash", JNull)] key.
Proof.
  apply (@loadTypesRegistryFile_values Demo.platform Demo.registryPath
           (Demo.started None true true) Demo.registryText
           [("entries", JObject [("lodash", JNull)])] [("lodash", JNull)]);
    reflexivity.
Defined.

(** ** Runs of served messages *)

Lemma packageInstalledResponses_app `{platform : Platform} (a b : list Ev) :
  packageInstalledResponses (a ++ b)
    = packageInstalledResponses a ++ packageInstalledResponses b.
Proof.
  induction a as [|ev a IH]; [done|].
  destruct ev as [[]| | |]; cbn [app packageInstalledResponses]; by rewrite IH.
Qed.

Lemma packageInstalledResponses_base `{platform : Platform} (out : list BaseResponse) :
  packageInstalledResponses (map (fun x => EvSend (BaseInstallerResponse x)) out) = [].
Proof. induction out; [done|]. cbn [map packageInstalledResponses]. done. Qed.

Lemma packageInstalledResponses_pending `{platform : Platform} s :
  packageInstalledResponses (pendingEvents s) = [].
Proof. unfold pendingEvents. by destruct (delayedInitializationError s). Qed.

(** The listener completes on a message of a declared kind, and adds a
    package-installed response exactly for an [installPackage] request. *)
Lemma served_onMessage `{platform : Platform} req s :
  served (Message req) = true ->
  exists s' (added : list (bool * string)),
    onMessage req s = (Ok tt, s') /\
    packageInstalledResponses (trace s')
      = packageInstalledResponses (trace s) ++ added /\
    match req with
    | InstallPackageRequest _ packageName _ =>
        exists success, added = [(success, packageInstalledMessage success packageName)]
    | _ => added = []
    end.
Proof.
  intros Hserved.
  destruct (onMessage_run req s) as (r & tail & s1 & s' & E & _ & D & _ & T & _).
  exists s', (packageInstalledResponses tail).
  rewrite T, !packageInstalledResponses_app, packageInstalledResponses_pending.
  destruct req as [d|c| |fileName packageName projectRootPath|kind];
    cbn [dispatched served] in D, Hserved; [| | | |done].
  - destruct D as (-> & out & ->). rewrite E. split; [done|]. split; [done|].
    cbn [packageInstalledResponses]. apply packageInstalledResponses_base.
  - destruct D as (-> & out & ->). rewrite E. split; [done|]. split; [done|].
    cbn [packageInstalledResponses]. apply packageInstalledResponses_base.
  - destruct D as (-> & ->). rewrite E. done.
  - destruct D as (-> & res & before & after & _ & ->). rewrite E.
    split; [done|]. split; [done|]. by exists (isOk res).
Qed.

(** In a run of messages of declared kinds every [installPackage] request
    gets its own package-installed response, and no other such response is
    sent: the responses added to the trace are, in the order of the
    requests, one per request, each with the message for its package name
    and outcome. *)
Theorem packageInstalled_in_order `{platform : Platform}
    (events : list HostEvent) (s : State) :
  forallb served events = true ->
  exists outcomes : list bool,
    List.length outcomes = List.length (installPackageRequests events) /\
    packageInstalledResponses (trace (run events s))
      = packageInstalledResponses (trace s)
        ++ zip_with (fun success packageName =>
                       (success, packageInstalledMessage success packageName))
             outcomes (installPackageRequests events).
Proof.
  revert s. induction events as [|[req|] events IH]; intros s Hall.
  - exists []. cbn. by rewrite app_nil_r.
  - cbn [forallb] in Hall. apply andb_true_iff in Hall as [Hreq Hall].
    destruct (served_onMessage req s Hreq) as (s' & added & E & Hadded & Hkind).
    destruct (IH s' Hall) as (outcomes & Hlen & Hrun).
    cbn [run]. rewrite E, Hrun, Hadded.
    destruct req as [d|c| |fileName packageName projectRootPath|kind];
      cbn [installPackageRequests]; try (subst added; rewrite app_nil_r; by exists outcomes).
    destruct Hkind as (success & ->).
    exists (success :: outcomes). split; [cbn; by rewrite Hlen|].
    by rewrite <- app_assoc.
  - done.
Qed.

Lemma packageInstalled_in_order_witness :
  exists outcomes : list bool,
    List.length outcomes = 2%nat /\
    packageInstalledResponses
      (trace (@run Demo.platform
                [Message (InstallPackageRequest "/a/b/c/file.ts" "react" None);
                 Message TypesRegistryRequest;
                 Message (InstallPackageRequest "/x/file.ts" "lodash" None)]
                (Demo.started None true true)))
      = packageInstalledResponses (trace (Demo.started None true true))
        ++ zip_with (fun success packageName =>
                       (success, packageInstalledMessage success packageName))
             outcomes ["react"; "lodash"].
Proof.
  apply (@packageInstalled_in_order Demo.platform
           [Message (InstallPackageRequest "/a/b/c/file.ts" "react" None);
            Message TypesRegistryRequest;
            Message (InstallPackageRequest "/x/file.ts" "lodash" None)]
           (Demo.started None true true)).
  reflexivity.
Defined.

(** Messages of declared kinds are handled one after the other and never
    end the process: handling a run of them and then more events is handling
    the more events from where the run left the process. *)
Theorem run_app_served `{platform : Platform} (events more : list HostEvent) (s : State) :
  forallb served events = true ->
  run (events ++ more) s = run more (run events s).
Proof.
  revert s. induction events as [|[req|] events IH]; intros s Hall; [done| |done].
  cbn [forallb] in Hall. apply andb_true_iff in Hall as [Hreq Hall].
  destruct (served_onMessage req s Hreq) as (s' & added & E & _).
  cbn [app run]. rewrite E. by apply IH.
Qed.

Lemma run_app_served_witness :
  @run Demo.platform
    ([Message TypesRegistryRequest] ++ [Message (OtherKind "bogus"); Disconnect])
    (Demo.started None false true)
  = @run Demo.platform [Message (OtherKind "bogus"); Disconnect]
      (@run Demo.platform [Message TypesRegistryRequest] (Demo.started None false true)).
Proof.
  apply (@run_app_served Demo.platform [Message TypesRegistryRequest]
           [Message (OtherKind "bogus"); Disconnect] (Demo.started None false true)).
  reflexivity.
Defined.

(** ** The snapshot after start-up *)

Lemma isEnabled_no_file (l : FileLog) : logFile l = None -> FileLog_isEnabled l = false.
Proof. unfold FileLog_isEnabled. intros ->. apply andb_false_r. Qed.

(** With logging off the loader leaves the state alone, and what it returns
    does not depend on the snapshot held so far. *)
Lemma load_then_set_off `{platform : Platform} path s :
  FileLog_isEnabled (log s) = false ->
  exists registry,
    (loadTypesRegistryFile path ≫= fun r => modify (set_typesRegistry r)) s
      = (Ok tt, set_typesRegistry registry s) /\
    loadTypesRegistryFile path (set_typesRegistry registry s)
      = (Ok registry, set_typesRegistry registry s).
Proof.
  intros Hoff.
  assert (Hlogged : forall text s0,
            FileLog_isEnabled (log s0) = false -> (logged text s0).2 = s0).
  { intros text s0 H0. destruct (logged_run text s0) as (w & l & -> & _ & E). by apply E. }
  unfold mbind, M_bind, modify.
  assert (Hsame : forall registry,
            (loadTypesRegistryFile path s).1 = Ok registry ->
            (loadTypesRegistryFile path s).2 = s /\
            loadTypesRegistryFile path (set_typesRegistry registry s)
              = (Ok registry, set_typesRegistry registry s)).
  { intros registry. rewrite !loadTypesRegistryFile_eq. simpl_state.
    destruct (sys_fileExists path (world s)).
    - destruct (readEntries path (world s)) as [entries|e]; cbn [fst snd].
      + intros [= <-]. done.
      + intros [= <-]. rewrite !Hlogged by done. done.
    - cbn [fst snd]. intros [= <-]. rewrite !Hlogged by done. done. }
  destruct (loadTypesRegistryFile path s) as [[registry|e] s'] eqn:E.
  - destruct (Hsame registry eq_refl) as [Hs Hload]. cbn [snd] in Hs. subst s'.
    by exists registry.
  - exfalso. revert E. rewrite loadTypesRegistryFile_eq.
    by repeat case_match.
Qed.

(** Start-up loads the snapshot after the update, whether or not the update
    threw: with no log file configured, the snapshot the process holds is
    what loading the registry file gives on the machine as start-up left
    it. *)
Theorem start_loads_registry `{platform : Platform} (globalTypingsCacheLocation : string)
    (typingSafeListLocation typesMapLocation npmLocation : option string) (w : World) :
  let boot := (start None globalTypingsCacheLocation typingSafeListLocation
                 typesMapLocation npmLocation w).2 in
  loadTypesRegistryFile (getTypesRegistryFileLocation globalTypingsCacheLocation) boot
    = (Ok (typesRegistry boot), boot).
Proof.
  cbv zeta. unfold start.
  set (s0 := initialState None w).
  assert (H0 : logFile (log s0) = None) by reflexivity.
  clearbody s0.
  set (Q := fun (_ : Result unit) (s' : State) =>
         loadTypesRegistryFile (getTypesRegistryFileLocation globalTypingsCacheLocation) s'
           = (Ok (typesRegistry s'), s')).
  assert (HQ : wp (NodeTypingsInstaller_constructor globalTypingsCacheLocation
                     typingSafeListLocation typesMapLocation npmLocation 5) s0 Q);
    [|exact HQ].
  assert (Hlast : forall s, logFile (log s) = None ->
            wp (loadTypesRegistryFile
                  (getTypesRegistryFileLocation globalTypingsCacheLocation)
                  ≫= fun registry => modify (set_typesRegistry registry)) s Q).
  { intros s Hs. unfold wp.
    destruct (load_then_set_off
                (getTypesRegistryFileLocation globalTypingsCacheLocation) s
                (isEnabled_no_file _ Hs)) as (registry & -> & Hload).
    exact Hload. }
  unfold NodeTypingsInstaller_constructor.
  wp_go. wp_case Hc; wp_go.
  all: wp_exec r wx; simpl_state.
  all: destruct r as [out|e]; cbv beta iota.
  all: repeat (lazymatch goal with
               | |- wp (mbind _ (loadTypesRegistryFile _)) _ _ => fail
               | _ => wp_step; simpl_state
               end).
  all: apply Hlast; simpl_state.
  all: repeat match goal with
              | H : log_step _ _ |- _ => destruct H as [-> _]
              end; exact H0.
Qed.

(** ** Where the package root lies *)

Lemma prefix_substring_0 (n : nat) (s : string) :
  String.prefix (String.substring 0 n s) s = true.
Proof.
  revert n. induction s as [|c s IH]; intros [|n];
    cbn [String.substring String.prefix]; try reflexivity.
  destruct (Ascii.ascii_dec c c) as [_|Hne]; [apply IH|by destruct Hne].
Qed.

Lemma prefix_trans (a b c : string) :
  String.prefix a b = true -> String.prefix b c = true -> String.prefix a c = true.
Proof.
  revert b c. induction a as [|x a IH]; intros [|y b] [|z c];
    cbn [String.prefix]; try done.
  destruct (Ascii.ascii_dec x y) as [->|]; [|done].
  destruct (Ascii.ascii_dec y z) as [->|]; [|done].
  apply IH.
Qed.

Lemma getDirectoryPath_prefix (path : string) :
  String.prefix (getDirectoryPath path) path = true.
Proof. apply prefix_substring_0. Qed.

Lemma prefix_refl (a : string) : String.prefix a a = true.
Proof.
  induction a as [|x a IH]; cbn [String.prefix]; [done|].
  by destruct (Ascii.ascii_dec x x).
Qed.

Lemma forEachAncestorDirectory_from_prefix steps directory
    (callback : string -> option string) result :
  (forall d r, callback d = Some r -> r = d) ->
  forEachAncestorDirectory_from steps directory callback = Some result ->
  String.prefix result directory = true.
Proof.
  intros Hcb. revert directory.
  induction steps as [|steps IH]; intros directory;
    cbn [forEachAncestorDirectory_from];
    destruct (callback directory) as [r|] eqn:E.
  - intros [= <-]. rewrite (Hcb _ _ E). apply prefix_refl.
  - by repeat case_match.
  - intros [= <-]. rewrite (Hcb _ _ E). apply prefix_refl.
  - case_match; [done|]. intros Hrest.
    exact (prefix_trans _ _ _ (IH _ Hrest) (getDirectoryPath_prefix directory)).
Qed.

(** What the resolver returns is a directory on the way from the file to
    the root: it is an initial part of the file name, and [package.json]
    exists in it. *)
Theorem getDirectoryOfPackageJson_ancestor `{platform : Platform}
    (fileName directory : string) (host : World) :
  getDirectoryOfPackageJson fileName host = Some directory ->
  String.prefix directory fileName = true /\
  sys_fileExists (combinePaths directory "package.json") host = true.
Proof.
  unfold getDirectoryOfPackageJson, forEachAncestorDirectory. intros Hfound. split.
  - apply (prefix_trans _ (getDirectoryPath fileName)); [|apply getDirectoryPath_prefix].
    refine (forEachAncestorDirectory_from_prefix _ _ _ _ _ Hfound).
    intros d r H. cbv beta in H. by case_match; simplify_eq.
  - rewrite forEachAncestorDirectory_from_chain in Hfound.
    apply head_Some_elem_of, list_elem_of_omap in Hfound as (d & _ & Hd).
    cbv beta in Hd. by case_match; simplify_eq.
Qed.

Lemma getDirectoryOfPackageJson_ancestor_witness :
  String.prefix "/a/b" "/a/b/c/file.ts" = true /\
  @sys_fileExists Demo.platform (combinePaths "/a/b" "package.json")
    (Demo.machine true true Demo.registryText) = true.
Proof.
  apply (@getDirectoryOfPackageJson_ancestor Demo.platform "/a/b/c/file.ts" "/a/b"
           (Demo.machine true true Demo.registryText)).
  vm_compute. reflexivity.
Defined.

(** ** The delayed error after a message *)

(** Once the listener has run on a message, of any kind and however it
    ends, no error is pending any more; a listener that finds none pending
    sends only what the switch sends. *)
Theorem onMessage_clears_delayed `{platform : Platform} (req : Request) (s : State) :
  delayedInitializationError (onMessage req s).2 = None /\
  (delayedInitializationError s = None ->
   onMessage req s = dispatch req s).
Proof.
  split.
  - destruct (onMessage_run req s) as (r & tail & s1 & s' & E & _ & _ & _ & _ & Hd & _).
    by rewrite E.
  - intros Hnone. rewrite onMessage_eq. unfold reportDelayedInitializationError.
    cbv beta delta [mbind M_bind gets]. cbv beta iota. by rewrite Hnone.
Qed.

Lemma onMessage_clears_delayed_witness :
  @onMessage Demo.platform TypesRegistryRequest (Demo.started None true true)
    = @dispatch Demo.platform TypesRegistryRequest (Demo.started None true true).
Proof.
  apply (proj2 (@onMessage_clears_delayed Demo.platform TypesRegistryRequest
                  (Demo.started None true true))).
  reflexivity.
Defined.
